(** * Feed-Service: posts router, conditional requests and pagination

    A shallow embedding of [routers/posts.py] and [model.py].  Python
    [str] values are Rocq strings whose characters are the code points
    0..255; Python [int] is [Z]; a [dict] is an association list in
    insertion order; the relational store is a record of row lists with
    an explicit committed state and a per-connection working copy. *)

From Stdlib Require Import ZArith Lia Ascii String.
From stdpp Require Import base option list strings pretty sorting.

Set Warnings "-register-all,-clear-no-such-hyp".

Open Scope string_scope.
Open Scope list_scope.

(** ** Strings *)

Module PyStr.

(** The double-quote character, U+0022. *)
Definition dquote : ascii := "034"%char.
Definition backslash : ascii := "092"%char.

Definition code (c : ascii) : Z := Z.of_N (N_of_ascii c).

(** [str.lower()] on the ASCII letters. *)
Definition lower_char (c : ascii) : ascii :=
  if ((65 <=? code c) && (code c <=? 90))%Z
  then ascii_of_N (N_of_ascii c + 32) else c.

Fixpoint lower (s : string) : string :=
  match s with
  | "" => ""
  | String c s => String (lower_char c) (lower s)
  end.

(** [s.lstrip(c)], [s.rstrip(c)] and [s.strip(c)] for a one-character
    set of characters to remove. *)
Fixpoint lstrip (c : ascii) (s : string) : string :=
  match s with
  | "" => ""
  | String a s' => if Ascii.eqb a c then lstrip c s' else s
  end.

Definition rstrip (c : ascii) (s : string) : string :=
  String.rev (lstrip c (String.rev s)).

Definition strip (c : ascii) (s : string) : string :=
  rstrip c (lstrip c s).

(** Python truthiness of a [str] and of an [Optional[str]]. *)
Definition truthy (s : string) : bool :=
  match s with "" => false | _ => true end.

Definition opt_truthy (o : option string) : bool :=
  match o with Some s => truthy s | None => false end.

Fixpoint replicate (n : nat) (c : ascii) : string :=
  match n with O => "" | S n => String c (replicate n c) end.

(** ["%0<w>d" % n] for a natural number. *)
Definition zpad (w : nat) (n : N) : string :=
  let s := pretty n in replicate (w - String.length s) "0" +:+ s.

(** The text between two double-quote characters, as the f-string of
    the [ETag] header builds it. *)
Definition quoted (s : string) : string :=
  String dquote (s +:+ String dquote "").

End PyStr.

(** ** Values *)

(** [datetime.datetime] (naive, as the MySQL connector returns it). *)
Record datetime := mkDatetime {
  year : N; month : N; day : N;
  hour : N; minute : N; second : N; microsecond : N
}.

Module Datetime.
Import PyStr.

Definition date_part (d : datetime) : string :=
  zpad 4 (year d) +:+ "-" +:+ zpad 2 (month d) +:+ "-" +:+ zpad 2 (day d).

Definition time_part (d : datetime) : string :=
  zpad 2 (hour d) +:+ ":" +:+ zpad 2 (minute d) +:+ ":" +:+ zpad 2 (second d)
  +:+ (if (microsecond d =? 0)%N then "" else "." +:+ zpad 6 (microsecond d)).

(** [d.isoformat()] *)
Definition isoformat (d : datetime) : string :=
  date_part d +:+ "T" +:+ time_part d.

(** [str(d)], which is [d.isoformat(sep=' ')]. *)
Definition str (d : datetime) : string :=
  date_part d +:+ " " +:+ time_part d.

(** Chronological order, as a key for [ORDER BY]. *)
Definition key (d : datetime) : list N :=
  [year d; month d; day d; hour d; minute d; second d; microsecond d].

Fixpoint lex_ltb (a b : list N) : bool :=
  match a, b with
  | x :: a', y :: b' => (x <? y)%N || ((x =? y)%N && lex_ltb a' b')
  | [], _ :: _ => true
  | _, _ => false
  end.

Definition ltb (a b : datetime) : bool := lex_ltb (key a) (key b).
End Datetime.

(** The Python values that reach [json.dumps] in this service. *)
Inductive pyval :=
| PNone
| PBool (b : bool)
| PInt (n : Z)
| PStr (s : string)
| PDatetime (d : datetime)
| PList (xs : list pyval)
| PDict (kvs : list (string * pyval)).

Definition pydict := list (string * pyval).

(** [d.get(k)] / [d[k]]: the value stored under [k]. *)
Fixpoint py_get (k : string) (d : pydict) : option pyval :=
  match d with
  | [] => None
  | (k', v) :: d' => if String.eqb k' k then Some v else py_get k d'
  end.

(** [d[k] = v]: overwrite in place when the key exists, append otherwise. *)
Fixpoint py_set (k : string) (v : pyval) (d : pydict) : pydict :=
  match d with
  | [] => [(k, v)]
  | (k', v') :: d' =>
      if String.eqb k' k then (k', v) :: d' else (k', v') :: py_set k v d'
  end.

(** ** [json.dumps(data, sort_keys=True, default=str)] *)

Module Json.
Import PyStr.

Definition hex_digit (n : Z) : ascii :=
  match n with
  | 0 => "0" | 1 => "1" | 2 => "2" | 3 => "3" | 4 => "4" | 5 => "5"
  | 6 => "6" | 7 => "7" | 8 => "8" | 9 => "9" | 10 => "a" | 11 => "b"
  | 12 => "c" | 13 => "d" | 14 => "e" | _ => "f"
  end%Z%char.

(** ['\\u{0:04x}'.format(n)] for a code point below 256. *)
Definition u_escape (n : Z) : string :=
  String backslash
    (String "u" (String "0" (String "0"
      (String (hex_digit (n / 16)) (String (hex_digit (n mod 16)) ""))))).

(** One character of [py_encode_basestring_ascii]: everything outside
    the printable range [' '..'~'], the quote and the backslash are
    escaped. *)
Definition escape_char (c : ascii) : string :=
  let n := code c in
  if (n =? 34)%Z then String backslash (String dquote "")
  else if (n =? 92)%Z then String backslash (String backslash "")
  else if (n =? 10)%Z then String backslash "n"
  else if (n =? 13)%Z then String backslash "r"
  else if (n =? 9)%Z then String backslash "t"
  else if (n =? 12)%Z then String backslash "f"
  else if (n =? 8)%Z then String backslash "b"
  else if ((32 <=? n) && (n <=? 126))%Z then String c ""
  else u_escape n.

Fixpoint escape (s : string) : string :=
  match s with
  | "" => ""
  | String c s' => escape_char c +:+ escape s'
  end.

Definition encode_str (s : string) : string := quoted (escape s).

(** Items are ordered by key, as [sorted(dct.items())] does for the
    distinct keys of a dict. *)
Definition key_le (a b : string * string) : Prop := (a.1 ≤ b.1)%string.

#[global] Instance key_le_dec : RelDecision key_le.
Proof. intros a b. unfold key_le. apply _. Defined.

Definition sort_items : list (string * string) → list (string * string) :=
  merge_sort key_le.

Definition dump_item (kv : string * string) : string :=
  encode_str kv.1 +:+ ": " +:+ kv.2.

(** The encoder proper.  A [datetime] is not serializable, so it goes
    through [default=str] and the resulting string is encoded. *)
Fixpoint dumps (v : pyval) : string :=
  match v with
  | PNone => "null"
  | PBool true => "true"
  | PBool false => "false"
  | PInt n => pretty n
  | PStr s => encode_str s
  | PDatetime d => encode_str (Datetime.str d)
  | PList xs => "[" +:+ String.concat ", " (map dumps xs) +:+ "]"
  | PDict kvs =>
      "{" +:+ String.concat ", "
                (map dump_item
                     (sort_items (map (λ kv, (kv.1, dumps kv.2)) kvs)))
          +:+ "}"
  end.
End Json.

(** ** [hashlib.md5(...).hexdigest()] *)

Module MD5.
Open Scope Z_scope.

Definition add32 (a b : Z) : Z := (a + b) mod 2 ^ 32.
Definition not32 (a : Z) : Z := Z.lxor a 4294967295.
Definition rotl32 (x c : Z) : Z :=
  Z.lor (Z.shiftl x c mod 2 ^ 32) (Z.shiftr x (32 - c)).

(** Per-round shift amounts and the sine table. *)
Definition S : list Z :=
  [7; 12; 17; 22; 7; 12; 17; 22; 7; 12; 17; 22; 7; 12; 17; 22;
   5; 9; 14; 20; 5; 9; 14; 20; 5; 9; 14; 20; 5; 9; 14; 20;
   4; 11; 16; 23; 4; 11; 16; 23; 4; 11; 16; 23; 4; 11; 16; 23;
   6; 10; 15; 21; 6; 10; 15; 21; 6; 10; 15; 21; 6; 10; 15; 21].

Definition K : list Z :=
  [3614090360; 3905402710; 606105819; 3250441966; 4118548399; 1200080426;
   2821735955; 4249261313; 1770035416; 2336552879; 4294925233; 2304563134;
   1804603682; 4254626195; 2792965006; 1236535329; 4129170786; 3225465664;
   643717713; 3921069994; 3593408605; 38016083; 3634488961; 3889429448;
   568446438; 3275163606; 4107603335; 1163531501; 2850285829; 4243563512;
   1735328473; 2368359562; 4294588738; 2272392833; 1839030562; 4259657740;
   2763975236; 1272893353; 4139469664; 3200236656; 681279174; 3936430074;
   3572445317; 76029189; 3654602809; 3873151461; 530742520; 3299628645;
   4096336452; 1126891415; 2878612391; 4237533241; 1700485571; 2399980690;
   4293915773; 2240044497; 1873313359; 4264355552; 2734768916; 1309151649;
   4149444226; 3174756917; 718787259; 3951481745].

Definition at_ (l : list Z) (i : Z) : Z := nth (Z.to_nat i) l 0.

(** Little-endian bytes of a word, and back. *)
Definition le_bytes (n : nat) (x : Z) : list Z :=
  map (λ i, Z.shiftr x (8 * Z.of_nat i) mod 256) (seq 0 n).

Fixpoint le_words (bs : list Z) : list Z :=
  match bs with
  | b0 :: b1 :: b2 :: b3 :: r =>
      (b0 + 256 * (b1 + 256 * (b2 + 256 * b3))) :: le_words r
  | _ => []
  end.

(** The message, one [0x80] byte, zeros up to 56 modulo 64, and the
    bit length on eight bytes. *)
Definition pad (msg : list Z) : list Z :=
  let n := Z.of_nat (length msg) in
  msg ++ [128] ++ repeat 0 (Z.to_nat ((55 - n) mod 64))
      ++ le_bytes 8 ((8 * n) mod 2 ^ 64).

Fixpoint blocks (fuel : nat) (bs : list Z) : list (list Z) :=
  match fuel, bs with
  | _, [] => []
  | O, _ => []
  | Datatypes.S fuel, _ => take 64 bs :: blocks fuel (drop 64 bs)
  end.

Definition state : Type := Z * Z * Z * Z.

Definition round (M : list Z) (st : state) (i : Z) : state :=
  let '(A, B, C, D) := st in
  let '(F, g) :=
    if i <? 16 then (Z.lor (Z.land B C) (Z.land (not32 B) D), i)
    else if i <? 32 then
      (Z.lor (Z.land D B) (Z.land (not32 D) C), (5 * i + 1) mod 16)
    else if i <? 48 then (Z.lxor (Z.lxor B C) D, (3 * i + 5) mod 16)
    else (Z.lxor C (Z.lor B (not32 D)), (7 * i) mod 16) in
  let F := (F + A + at_ K i + at_ M g) mod 2 ^ 32 in
  (D, add32 B (rotl32 F (at_ S i)), B, C).

Definition compress (h : state) (block : list Z) : state :=
  let M := le_words block in
  let '(A, B, C, D) := foldl (round M) h (map Z.of_nat (seq 0 64)) in
  let '(a0, b0, c0, d0) := h in
  (add32 a0 A, add32 b0 B, add32 c0 C, add32 d0 D).

Definition init : state := (1732584193, 4023233417, 2562383102, 271733878).

Definition digest (msg : list Z) : list Z :=
  let p := pad msg in
  let '(a, b, c, d) := foldl compress init (blocks (length p) p) in
  le_bytes 4 a ++ le_bytes 4 b ++ le_bytes 4 c ++ le_bytes 4 d.

Definition hex_byte (b : Z) : string :=
  String (Json.hex_digit (b / 16 mod 16))
    (String (Json.hex_digit (b mod 16)) "").

Definition hexdigest (msg : list Z) : string :=
  String.concat "" (map hex_byte (digest msg)).
End MD5.

(** [s.encode()]: UTF-8 of a string of code points below 256. *)
Fixpoint utf8_encode (s : string) : list Z :=
  match s with
  | "" => []
  | String c s' =>
      let n := PyStr.code c in
      (if (n <? 128)%Z then [n]
       else [Z.lor 192 (Z.shiftr n 6); Z.lor 128 (Z.land n 63)])
      ++ utf8_encode s'
  end.

(** ** Helpers of the router *)

(** [generate_etag(data)] *)
Definition generate_etag (data : pydict) : string :=
  let data_str := Json.dumps (PDict data) in
  MD5.hexdigest (utf8_encode data_str).

(** One link object. *)
Definition href (url : string) : pyval := PDict [("href", PStr url)].

(** [add_links(post_id, base_url)]; the handlers call it with the
    default, empty [base_url]. *)
Definition add_links (post_id : Z) (base_url : string) : pydict :=
  [("self", href (base_url +:+ "/posts/" +:+ pretty post_id));
   ("collection", href (base_url +:+ "/posts"));
   ("interests",
      href (base_url +:+ "/posts/" +:+ pretty post_id +:+ "/interests"));
   ("author", href (base_url +:+ "/users/" +:+ pretty post_id))].

(** ** Request schemas ([model.py]) *)

Module PostCreate.
(** [PostBase] plus [interest_ids]. *)
Record t := mk {
  title : string;
  body : option string;
  image_url : option string;
  interest_ids : option (list Z)
}.

(** [post.created_by]: the schema declares no such field and pydantic
    drops undeclared keys of the request body, so reading the attribute
    raises [AttributeError]; [None] stands for that. *)
Definition created_by (post : t) : option Z := None.
End PostCreate.

(** A field of a sparse payload: left out, sent as [null], or sent with a
    value ([exclude_unset] tells the first from the second). *)
Inductive field (A : Type) :=
| Unset
| Null
| Given (a : A).
Arguments Unset {A}.
Arguments Null {A}.
Arguments Given {A} a.

Module PostUpdate.
Record t := mk {
  title : field string;
  body : field string;
  image_url : field string;
  interest_ids : field (list Z)
}.

Definition item {A} (k : string) (f : field A) : list (string * option A) :=
  match f with
  | Unset => []
  | Null => [(k, None)]
  | Given a => [(k, Some a)]
  end.

(** [post.dict(exclude_unset=True)], split into the scalar entries and
    the entry [update_dict.pop('interest_ids', None)] takes out. *)
Definition scalar_items (post : t) : list (string * option string) :=
  item "title" (title post) ++ item "body" (body post)
    ++ item "image_url" (image_url post).

Definition pop_interest_ids (post : t) : option (list Z) :=
  match interest_ids post with
  | Given ids => Some ids
  | _ => None
  end.
End PostUpdate.

Module PostResponse.
(** [PostResponse]: the fields of [PostBase], then [post_id],
    [created_by], [created_at], [interests] and [links].  A route declared
    with [response_model=PostResponse] has the dictionary it returns read
    against the schema, field by field, and sends the fields in the order
    of the schema.  The readers below cover the values the handlers put
    under each key; [None] is a field that does not pass. *)
Definition required_str (v : option pyval) : option pyval :=
  match v with Some (PStr s) => Some (PStr s) | _ => None end.

Definition optional_str (v : option pyval) : option pyval :=
  match v with
  | Some (PStr s) => Some (PStr s)
  | Some PNone | None => Some PNone
  | _ => None
  end.

Definition required_int (v : option pyval) : option pyval :=
  match v with Some (PInt n) => Some (PInt n) | _ => None end.

(** [created_at: datetime]: a [datetime], or the ISO text the handlers
    have made of one, which is read back and sent as the same text;
    [None] and a missing key do not pass. *)
Definition required_datetime (v : option pyval) : option pyval :=
  match v with
  | Some (PDatetime d) => Some (PStr (Datetime.isoformat d))
  | Some (PStr s) => Some (PStr s)
  | _ => None
  end.

Definition is_dict (v : pyval) : bool :=
  match v with PDict _ => true | _ => false end.

(** [interests: Optional[List[dict]] = []] *)
Definition optional_dicts (v : option pyval) : option pyval :=
  match v with
  | Some (PList xs) => if forallb is_dict xs then Some (PList xs) else None
  | Some PNone => Some PNone
  | None => Some (PList [])
  | _ => None
  end.

(** [links: Optional[dict] = {}] *)
Definition optional_dict (v : option pyval) : option pyval :=
  match v with
  | Some (PDict kvs) => Some (PDict kvs)
  | Some PNone => Some PNone
  | None => Some (PDict [])
  | _ => None
  end.

Definition serialize (post : pydict) : option pydict :=
  title ← required_str (py_get "title" post);
  body ← optional_str (py_get "body" post);
  image_url ← optional_str (py_get "image_url" post);
  post_id ← required_int (py_get "post_id" post);
  created_by ← required_int (py_get "created_by" post);
  created_at ← required_datetime (py_get "created_at" post);
  interests ← optional_dicts (py_get "interests" post);
  links ← optional_dict (py_get "links" post);
  Some [("title", title); ("body", body); ("image_url", image_url);
        ("post_id", post_id); ("created_by", created_by);
        ("created_at", created_at); ("interests", interests);
        ("links", links)].
End PostResponse.

(** ** The relational store *)

Module Post.
(** A row of [Posts]. *)
Record t := mk {
  post_id : Z;
  title : string;
  body : option string;
  image_url : option string;
  created_by : Z;
  created_at : option datetime
}.

Definition opt_str (o : option string) : pyval :=
  match o with Some s => PStr s | None => PNone end.

(** The row as the dictionary cursor returns it for
    [SELECT post_id, title, body, image_url, created_by, created_at]. *)
Definition as_dict (r : t) : pydict :=
  [("post_id", PInt (post_id r));
   ("title", PStr (title r));
   ("body", opt_str (body r));
   ("image_url", opt_str (image_url r));
   ("created_by", PInt (created_by r));
   ("created_at",
      match created_at r with Some d => PDatetime d | None => PNone end)].
End Post.

(** The store: its three tables and what the server adds of its own.
    [ties] is the server's way of lining up, for the ordered query at
    hand, the rows its [ORDER BY] does not tell apart: SQL leaves that
    order to the server, query by query, so two queries are two stores
    with the same tables and any two [ties]. *)
Record db := mkDb {
  Posts : list Post.t;
  Interests : list (Z * string);        (* interest_id, interest_name *)
  PostInterests : list (Z * Z);          (* post_id, interest_id *)
  next_post_id : Z;                      (* AUTO_INCREMENT of Posts *)
  clock : datetime;                      (* CURRENT_TIMESTAMP *)
  ties : list nat                        (* order of rows ORDER BY leaves equal *)
}.

(** One conjunct of the [WHERE] clause of the listing. *)
Inductive clause :=
| ByInterest (interest_id : Z)
| ByCreator (created_by : Z)
| BySearch (pattern : string).

Module Sql.
Import PyStr.

(** Modelled from the spec: the text columns compare case-insensitively
    ("case-insensitive substring", section 4.5); the schema with the
    collation is not part of the sources. *)
Definition ci_eqb (a b : ascii) : bool :=
  Ascii.eqb (lower_char a) (lower_char b).

(** [text LIKE pattern]: [%] matches any run of characters, [_] any one
    character, a backslash makes the next character literal. *)
Fixpoint like (p : string) : string → bool :=
  match p with
  | "" => λ t, match t with "" => true | _ => false end
  | String c p' =>
      if Ascii.eqb c "%" then
        fix star (t : string) : bool :=
          like p' t || match t with "" => false | String _ t' => star t' end
      else if Ascii.eqb c "_" then
        λ t, match t with "" => false | String _ t' => like p' t' end
      else if Ascii.eqb c backslash then
        match p' with
        | "" => λ t, match t with
                     | String d "" => ci_eqb c d
                     | _ => false
                     end
        | String e p'' =>
            λ t, match t with
                 | "" => false
                 | String d t' => ci_eqb e d && like p'' t'
                 end
        end
      else
        λ t, match t with
             | "" => false
             | String d t' => ci_eqb c d && like p' t'
             end
  end.

(** A [NULL] operand makes the comparison unknown, which selects
    nothing. *)
Definition like_opt (p : string) (o : option string) : bool :=
  match o with Some t => like p t | None => false end.

Definition holds (d : db) (r : Post.t) (c : clause) : bool :=
  match c with
  | ByInterest i =>
      existsb (λ pi, (pi.1 =? Post.post_id r)%Z && (pi.2 =? i)%Z)
              (PostInterests d)
  | ByCreator u => (Post.created_by r =? u)%Z
  | BySearch p => like p (Post.title r) || like_opt p (Post.body r)
  end.

(** [" AND ".join(where_clauses)], or [1=1] when there is none. *)
Definition where_ (d : db) (w : list clause) (r : Post.t) : bool :=
  forallb (holds d r) w.

Definition count_posts (w : list clause) (d : db) : Z :=
  Z.of_nat (length (filter (λ r, Is_true (where_ d w r)) (Posts d))).

(** [ORDER BY created_at DESC]: [a] may precede [b] unless it is
    strictly older; [NULL] sorts as the oldest. *)
Definition older (a b : option datetime) : bool :=
  match a, b with
  | None, Some _ => true
  | Some x, Some y => Datetime.ltb x y
  | _, _ => false
  end.

Definition newest_first (a b : Post.t) : Prop :=
  older (Post.created_at a) (Post.created_at b) = false.

#[global] Instance newest_first_dec : RelDecision newest_first.
Proof. intros a b. unfold newest_first. apply _. Defined.

(** The rows of a query before they are ordered come in an order of the
    server's choosing: [arrange code rows] puts each row, from the last
    to the first, at the position its entry of [code] names among the
    rows already placed (at the end when the position is past it); rows
    without an entry stay as stored.  Every order of the rows is
    [arrange code rows] for some [code]. *)
Definition put {A} (n : nat) (x : A) (l : list A) : list A :=
  take n l ++ x :: drop n l.

Fixpoint arrange {A} (code : list nat) (rows : list A) : list A :=
  match rows, code with
  | x :: rows', n :: code' => put n x (arrange code' rows')
  | _, _ => rows
  end.

(** [ORDER BY]: each row, from the last to the first, is put before the
    first row it may precede, so rows that come in order are left as they
    come: among rows the order does not tell apart, the arrangement of the
    server decides. *)
Fixpoint insert_by {A} (R : relation A) `{!RelDecision R} (x : A) (l : list A)
  : list A :=
  match l with
  | [] => [x]
  | y :: l' => if decide (R x y) then x :: l else y :: insert_by R x l'
  end.

Definition order_by {A} (R : relation A) `{!RelDecision R} (l : list A)
  : list A :=
  foldr (insert_by R) [] l.

(** [SELECT ... WHERE w ORDER BY created_at DESC LIMIT l OFFSET s] *)
Definition select_page (w : list clause) (limit skip : Z) (d : db)
  : list Post.t :=
  take (Z.to_nat limit)
    (drop (Z.to_nat skip)
       (order_by newest_first
          (arrange (ties d)
             (filter (λ r, Is_true (where_ d w r)) (Posts d))))).

(** [SELECT ... FROM Posts WHERE post_id = %s] with [fetchone()] *)
Definition select_post (id : Z) (d : db) : option Post.t :=
  find (λ r, (Post.post_id r =? id)%Z) (Posts d).

(** [SELECT i.interest_id, i.interest_name FROM Interests i
     INNER JOIN PostInterests pi ON i.interest_id = pi.interest_id
     WHERE pi.post_id = %s] *)
Definition select_post_interests (id : Z) (d : db) : list (Z * string) :=
  flat_map
    (λ i, flat_map
            (λ pi, if (pi.1 =? id)%Z && (pi.2 =? i.1)%Z then [i] else [])
            (PostInterests d))
    (Interests d).

(** [SELECT interest_id FROM Interests WHERE interest_id = %s] *)
Definition select_interest (id : Z) (d : db) : option (Z * string) :=
  find (λ i, (i.1 =? id)%Z) (Interests d).

(** [SELECT interest_id, interest_name FROM Interests
     ORDER BY interest_name] *)
Definition by_name (a b : Z * string) : Prop := (a.2 ≤ b.2)%string.

#[global] Instance by_name_dec : RelDecision by_name.
Proof. intros a b. unfold by_name. apply _. Defined.

Definition select_interests (d : db) : list (Z * string) :=
  order_by by_name (arrange (ties d) (Interests d)).

(** [INSERT INTO Posts (title, body, image_url, created_by)]: the store
    assigns the identity and the creation time. *)
Definition insert_post (title : string) (body image_url : option string)
    (created_by : Z) (d : db) : db :=
  mkDb (Posts d ++ [Post.mk (next_post_id d) title body image_url
                             created_by (Some (clock d))])
       (Interests d) (PostInterests d) (next_post_id d + 1) (clock d)
       (ties d).

(** Modelled from the spec: [PostInterests] holds each
    (post_id, interest_id) pair at most once (section 3), so a second
    insert of a pair is refused by the store; the schema is not part of
    the sources. *)
Definition has_pair (post_id interest_id : Z) (d : db) : bool :=
  existsb (λ pi, (pi.1 =? post_id)%Z && (pi.2 =? interest_id)%Z)
          (PostInterests d).

(** [INSERT INTO PostInterests (post_id, interest_id)] *)
Definition insert_post_interest (post_id interest_id : Z) (d : db) : db :=
  mkDb (Posts d) (Interests d) (PostInterests d ++ [(post_id, interest_id)])
       (next_post_id d) (clock d) (ties d).

Definition set_column (r : Post.t) (a : string * string) : Post.t :=
  let '(column, v) := a in
  if String.eqb column "title" then
    Post.mk (Post.post_id r) v (Post.body r) (Post.image_url r)
            (Post.created_by r) (Post.created_at r)
  else if String.eqb column "body" then
    Post.mk (Post.post_id r) (Post.title r) (Some v) (Post.image_url r)
            (Post.created_by r) (Post.created_at r)
  else if String.eqb column "image_url" then
    Post.mk (Post.post_id r) (Post.title r) (Post.body r) (Some v)
            (Post.created_by r) (Post.created_at r)
  else r.

(** [UPDATE Posts SET c1 = %s, ... WHERE post_id = %s] *)
Definition update_post (assignments : list (string * string)) (id : Z)
    (d : db) : db :=
  mkDb (map (λ r, if (Post.post_id r =? id)%Z
                  then foldl set_column r assignments else r) (Posts d))
       (Interests d) (PostInterests d) (next_post_id d) (clock d) (ties d).

(** [DELETE FROM PostInterests WHERE post_id = %s] *)
Definition delete_post_interests (id : Z) (d : db) : db :=
  mkDb (Posts d) (Interests d)
       (filter (λ pi, pi.1 ≠ id) (PostInterests d))
       (next_post_id d) (clock d) (ties d).

(** [DELETE FROM Posts WHERE post_id = %s] *)
Definition delete_post (id : Z) (d : db) : db :=
  mkDb (filter (λ r, Post.post_id r ≠ id) (Posts d))
       (Interests d) (PostInterests d) (next_post_id d) (clock d) (ties d).
End Sql.

(** ** Connections, transactions and exceptions *)

(** The statements the router sends to the store. *)
Inductive stmt :=
| SelectPost (post_id : Z)
| SelectCreatedBy (post_id : Z)
| SelectPostInterests (post_id : Z)
| SelectInterest (interest_id : Z)
| SelectInterests
| CountPosts (w : list clause)
| SelectPage (w : list clause) (limit skip : Z)
| InsertPost (title : string) (body image_url : option string) (created_by : Z)
| InsertPostInterest (post_id interest_id : Z)
| UpdatePost (assignments : list (string * string)) (post_id : Z)
| DeletePostInterests (post_id : Z)
| DeletePost (post_id : Z).

Definition is_write (q : stmt) : bool :=
  match q with
  | InsertPost _ _ _ _ | InsertPostInterest _ _ | UpdatePost _ _
  | DeletePostInterests _ | DeletePost _ => true
  | _ => false
  end.

(** The effect of a statement on the connection's view of the store;
    [None] when the store refuses it. *)
Definition exec (q : stmt) (d : db) : option db :=
  match q with
  | InsertPost t b i c => Some (Sql.insert_post t b i c d)
  | InsertPostInterest p i =>
      if Sql.has_pair p i d then None else Some (Sql.insert_post_interest p i d)
  | UpdatePost a p => Some (Sql.update_post a p d)
  | DeletePostInterests p => Some (Sql.delete_post_interests p d)
  | DeletePost p => Some (Sql.delete_post p d)
  | _ => Some d
  end.

Inductive event :=
| Connect
| Execute (q : stmt)
| Commit
| Close.

(** [disk] is the committed store; [txn] is what the handler's own
    connection sees (autocommit is off, so its writes stay there until
    [cnx.commit()] and are lost when the connection goes away without
    one); [log] records every store operation in order. *)
Record session := mkSession {
  disk : db;
  txn : db;
  log : list event
}.

(** What a request can end in short of a response of the handler: an
    [HTTPException] the handler raises, the refusal of a query parameter
    outside the bounds its [Query(...)] declares, and any other
    exception, which nothing in the application catches. *)
Inductive exn :=
| HTTPException (status_code : Z) (detail : string)
| RequestValidationError (params : list string)
| Uncaught (name : string).

Inductive result (A : Type) :=
| Return (a : A)
| Raise (e : exn).
Arguments Return {A} a.
Arguments Raise {A} e.

Definition M (A : Type) : Type := session → result A * session.

Definition ret {A} (a : A) : M A := λ s, (Return a, s).

Definition bind {A B} (m : M A) (k : A → M B) : M B :=
  λ s, match m s with
       | (Return a, s') => k a s'
       | (Raise e, s') => (Raise e, s')
       end.

Definition raise {A} (e : exn) : M A := λ s, (Raise e, s).

Notation "x <~ m ; k" := (bind m (λ x, k))
  (at level 100, m at next level, right associativity).
Notation "m ;; k" := (bind m (λ _, k))
  (at level 100, right associativity).

Definition emit (e : event) (s : session) : session :=
  mkSession (disk s) (txn s) (log s ++ [e]).

(** [cnx = get_connection(); cur = cnx.cursor(dictionary=True)] *)
Definition get_connection : M unit :=
  λ s, (Return tt, mkSession (disk s) (disk s) (log s ++ [Connect])).

(** [cur.execute(q)] followed by a fetch: a read through the handler's
    connection. *)
Definition fetch {A} (q : stmt) (f : db → A) : M A :=
  λ s, (Return (f (txn s)), emit (Execute q) s).

(** [cur.execute(q)] for a statement that changes rows. *)
Definition execute (q : stmt) : M unit :=
  λ s, match exec q (txn s) with
       | Some d => (Return tt, mkSession (disk s) d (log s ++ [Execute q]))
       | None => (Raise (Uncaught "IntegrityError"), emit (Execute q) s)
       end.

(** [cnx.commit()] *)
Definition commit : M unit :=
  λ s, (Return tt, mkSession (txn s) (txn s) (log s ++ [Commit])).

(** [cur.close(); cnx.close()] *)
Definition close : M unit := λ s, (Return tt, emit Close s).

Fixpoint mapM {A B} (f : A → M B) (l : list A) : M (list B) :=
  match l with
  | [] => ret []
  | a :: l' => b <~ f a; bs <~ mapM f l'; ret (b :: bs)
  end.

(** ** Responses *)

Record reply := mkReply {
  status : Z;
  headers : list (string * string);
  content : option pyval
}.

(** What the framework sends for the outcome of a handler.  Of the
    error objects of a 422 only the location is given here; their message
    and type texts are those of the validation library. *)
Definition respond (r : result reply) : reply :=
  match r with
  | Return rep => rep
  | Raise (HTTPException code detail) =>
      mkReply code [] (Some (PDict [("detail", PStr detail)]))
  | Raise (RequestValidationError params) =>
      mkReply 422 []
        (Some (PDict
           [("detail",
             PList (map (λ p, PDict [("loc", PList [PStr "query"; PStr p])])
                        params))]))
  | Raise (Uncaught _) => mkReply 500 [] (Some (PStr "Internal Server Error"))
  end.

(** Serving one request on a store: the response, the store as committed
    afterwards, and the store operations performed. *)
Definition serve (h : M reply) (d : db) : reply * db * list event :=
  let '(r, s) := h (mkSession d d []) in (respond r, disk s, log s).

(** [return post] in a route declared with [response_model=PostResponse]:
    the dictionary is sent as the schema gives it, or, when it does not
    pass, the request ends in a validation error of the response, which
    is answered 500. *)
Definition return_post (status_code : Z) (response_headers : list (string * string))
    (post : pydict) : M reply :=
  match PostResponse.serialize post with
  | Some body => ret (mkReply status_code response_headers (Some (PDict body)))
  | None => raise (Uncaught "ResponseValidationError")
  end.

(** ** The handlers *)

Record Request := mkRequest {
  request_headers : list (string * string)
}.

(** [request.headers.get(key)]: header names compare case-insensitively
    and the first match is returned. *)
Definition headers_get (request : Request) (key : string) : option string :=
  match find (λ kv, String.eqb (PyStr.lower kv.1) (PyStr.lower key))
             (request_headers request) with
  | Some kv => Some kv.2
  | None => None
  end.

(** [a or b] on optional strings. *)
Definition py_or (a b : option string) : option string :=
  if PyStr.opt_truthy a then a else b.

Definition get_firebase_uid_from_header (request : Request) : M string :=
  let firebase_uid :=
    py_or (headers_get request "x-firebase-uid")
          (headers_get request "X-Firebase-Uid") in
  match firebase_uid with
  | Some uid =>
      if PyStr.truthy uid then ret uid
      else raise (HTTPException 401
             "Authentication required - x-firebase-uid header missing")
  | None =>
      raise (HTTPException 401
             "Authentication required - x-firebase-uid header missing")
  end.

Definition interest_dict (i : Z * string) : pyval :=
  PDict [("interest_id", PInt i.1); ("interest_name", PStr i.2)].

(** [get_post_interests(post_id)] opens a connection of its own, which
    sees the committed store. *)
Definition get_post_interests (post_id : Z) : M (list pyval) :=
  λ s, (Return (map interest_dict (Sql.select_post_interests post_id (disk s))),
        mkSession (disk s) (txn s)
          (log s ++ [Connect; Execute (SelectPostInterests post_id); Close])).

(** [if post.get('created_at') and isinstance(post['created_at'], datetime):
       post['created_at'] = post['created_at'].isoformat()] *)
Definition isoformat_created_at (post : pydict) : pydict :=
  match py_get "created_at" post with
  | Some (PDatetime d) => py_set "created_at" (PStr (Datetime.isoformat d)) post
  | _ => post
  end.

(** Truthiness of an [Optional[int]] query parameter. *)
Definition int_truthy (o : option Z) : bool :=
  match o with Some n => negb (n =? 0)%Z | None => false end.

(** *** [GET /posts/] *)

Definition where_clauses (interest_id created_by : option Z)
    (search : option string) : list clause :=
  (if int_truthy interest_id then [ByInterest (default 0%Z interest_id)] else [])
  ++ (if int_truthy created_by then [ByCreator (default 0%Z created_by)] else [])
  ++ (if PyStr.opt_truthy search
      then [BySearch ("%" +:+ default "" search +:+ "%")] else []).

Definition page_href (skip limit : Z) : pyval :=
  href ("/posts?skip=" +:+ pretty skip +:+ "&limit=" +:+ pretty limit).

(** [a // b]: the floor of the quotient; a zero divisor raises
    [ZeroDivisionError], which [None] stands for. *)
Definition floordiv (a b : Z) : option Z :=
  if (b =? 0)%Z then None else Some (a / b)%Z.

(** The dictionary the listing returns (pagination metadata and links);
    [None] when building it raises [ZeroDivisionError]. *)
Definition listing (posts : list pyval) (total skip limit : Z)
  : option pydict :=
  pages ← floordiv (total - 1) limit;
  Some
    [("items", PList posts);
     ("total", PInt total);
     ("skip", PInt skip);
     ("limit", PInt limit);
     ("has_more", PBool (skip + limit <? total)%Z);
     ("links", PDict
        [("self", page_href skip limit);
         ("first", page_href 0 limit);
         ("last", page_href (Z.max 0 (pages * limit)) limit);
         ("next", if (skip + limit <? total)%Z
                  then page_href (skip + limit) limit else PNone);
         ("prev", if (0 <? skip)%Z
                  then page_href (Z.max 0 (skip - limit)) limit else PNone)])].

(** [skip: int = Query(0, ge=0)] and [limit: int = Query(10, ge=1, le=100)]:
    the parameters out of their bounds, in the order of the signature.
    The framework checks them before it calls the handler. *)
Definition query_errors (skip limit : Z) : list string :=
  (if (0 <=? skip)%Z then [] else ["skip"])
  ++ (if (1 <=? limit)%Z && (limit <=? 100)%Z then [] else ["limit"]).

Definition check_query (skip limit : Z) : M unit :=
  match query_errors skip limit with
  | [] => ret tt
  | params => raise (RequestValidationError params)
  end.

(** The body of the loop over the page: interests and links for a row
    with a truthy id, then the creation time as text. *)
Definition enrich_item (row : Post.t) : M pyval :=
  let post := Post.as_dict row in
  let post_id := Post.post_id row in
  post <~ (if negb (post_id =? 0)%Z then
             interests <~ get_post_interests post_id;
             ret (py_set "links" (PDict (add_links post_id ""))
                    (py_set "interests" (PList interests) post))
           else ret post);
  ret (PDict (isoformat_created_at post)).

(** The route: [skip] and [limit] are checked against the bounds of the
    signature, then the body of the handler runs.  Its result is a
    dictionary, which [response_model=Dict[str, Any]] lets through as it
    is. *)
Definition get_posts (request : Request) (skip limit : Z)
    (interest_id created_by : option Z) (search : option string) : M reply :=
  check_query skip limit;;
  firebase_uid <~ get_firebase_uid_from_header request;
  get_connection;;
  let w := where_clauses interest_id created_by search in
  total <~ fetch (CountPosts w) (Sql.count_posts w);
  rows <~ fetch (SelectPage w limit skip) (Sql.select_page w limit skip);
  close;;
  posts <~ mapM enrich_item rows;
  let etag :=
    generate_etag [("posts", PList posts); ("total", PInt total);
                   ("skip", PInt skip); ("limit", PInt limit)] in
  match listing posts total skip limit with
  | Some body => ret (mkReply 200 [("ETag", PyStr.quoted etag)] (Some (PDict body)))
  | None => raise (Uncaught "ZeroDivisionError")
  end.

(** *** [GET /posts/{post_id}] *)

(** The test of [If-None-Match]: the header is truthy and, once the
    quote characters at both ends are stripped, equals the tag. *)
Definition tag_matches (header : option string) (etag : string) : bool :=
  PyStr.opt_truthy header
  && String.eqb (PyStr.strip PyStr.dquote (default "" header)) etag.

Definition get_post (post_id : Z) (request : Request)
    (if_none_match : option string) : M reply :=
  get_connection;;
  post <~ fetch (SelectPost post_id) (Sql.select_post post_id);
  close;;
  match post with
  | None => raise (HTTPException 404 "Post not found")
  | Some row =>
      interests <~ get_post_interests post_id;
      let post := py_set "interests" (PList interests) (Post.as_dict row) in
      let post := isoformat_created_at post in
      let etag := generate_etag post in
      if tag_matches if_none_match etag then ret (mkReply 304 [] None)
      else
        let post := py_set "links" (PDict (add_links post_id "")) post in
        return_post 200 [("ETag", PyStr.quoted etag)] post
  end.

(** *** [POST /posts/] *)

(** The loop both writers run over the requested interests: look the
    interest up, give up with 400 when it is missing, insert the
    association row otherwise. *)
Fixpoint associate_interests (post_id : Z) (interest_ids : list Z) : M unit :=
  match interest_ids with
  | [] => ret tt
  | interest_id :: rest =>
      found <~ fetch (SelectInterest interest_id)
                     (Sql.select_interest interest_id);
      match found with
      | None =>
          close;;
          raise (HTTPException 400
                   ("Interest " +:+ pretty interest_id +:+ " not found"))
      | Some _ =>
          execute (InsertPostInterest post_id interest_id);;
          associate_interests post_id rest
      end
  end.

(** [cur.execute(INSERT ...)] and the [cur.lastrowid] it leaves. *)
Definition execute_insert (q : stmt) : M Z :=
  λ s, bind (execute q) (λ _, ret (next_post_id (txn s))) s.

Definition is_nonempty {A} (l : list A) : bool :=
  match l with [] => false | _ => true end.

(** The handler from the [INSERT] on, for a given creator. *)
Definition create_post_as (created_by : Z) (post : PostCreate.t) : M reply :=
  post_id <~ execute_insert
    (InsertPost (PostCreate.title post) (PostCreate.body post)
                (PostCreate.image_url post) created_by);
  commit;;
  if (post_id =? 0)%Z then
    close;; raise (HTTPException 500 "Failed to create post")
  else
    (if is_nonempty (default [] (PostCreate.interest_ids post)) then
       associate_interests post_id (default [] (PostCreate.interest_ids post));;
       commit
     else ret tt);;
    created_post <~ fetch (SelectPost post_id) (Sql.select_post post_id);
    close;;
    match created_post with
    | None => raise (HTTPException 500 "Failed to retrieve created post")
    | Some row =>
        interests <~ get_post_interests post_id;
        let created_post :=
          py_set "links" (PDict (add_links post_id ""))
            (py_set "interests" (PList interests) (Post.as_dict row)) in
        let created_post := isoformat_created_at created_post in
        return_post 201 [("Location", "/posts/" +:+ pretty post_id)] created_post
    end.

Definition create_post (post : PostCreate.t) (request : Request) : M reply :=
  firebase_uid <~ get_firebase_uid_from_header request;
  get_connection;;
  match PostCreate.created_by post with
  | None => raise (Uncaught "AttributeError")
  | Some created_by => create_post_as created_by post
  end.

(** *** [PUT /posts/{post_id}] *)

(** The [fields]/[values] lists: one assignment per entry whose value is
    not [None]. *)
Definition assignments (update_dict : list (string * option string))
  : list (string * string) :=
  omap (λ kv, match kv.2 with Some v => Some (kv.1, v) | None => None end)
       update_dict.

(** The state the precondition is checked against: the row as fetched,
    with its interests (the creation time is still a [datetime] here). *)
Definition existing_state (d : db) (post_id : Z) (row : Post.t) : pydict :=
  py_set "interests"
    (PList (map interest_dict (Sql.select_post_interests post_id d)))
    (Post.as_dict row).

(** [# Check eTag if provided] *)
Definition check_if_match (post_id : Z) (row : Post.t)
    (if_match : option string) : M unit :=
  if PyStr.opt_truthy if_match then
    interests <~ get_post_interests post_id;
    let existing_post :=
      py_set "interests" (PList interests) (Post.as_dict row) in
    let existing_etag := generate_etag existing_post in
    if negb (String.eqb (PyStr.strip PyStr.dquote (default "" if_match))
                        existing_etag) then
      close;;
      raise (HTTPException 412 "Precondition Failed: eTag mismatch")
    else ret tt
  else ret tt.

(** [# Build dynamic SQL for update] *)
Definition update_fields (post_id : Z) (post : PostUpdate.t) : M unit :=
  let fields := assignments (PostUpdate.scalar_items post) in
  if is_nonempty fields then
    execute (UpdatePost fields post_id);; commit
  else ret tt.

(** [# Update interests if provided] *)
Definition update_interests (post_id : Z) (post : PostUpdate.t) : M unit :=
  match PostUpdate.pop_interest_ids post with
  | Some ids =>
      execute (DeletePostInterests post_id);;
      associate_interests post_id ids;;
      commit
  | None => ret tt
  end.

(** [# Fetch the updated post], to the end of the handler. *)
Definition fetch_updated_post (post_id : Z) : M reply :=
  updated_post <~ fetch (SelectPost post_id) (Sql.select_post post_id);
  close;;
  match updated_post with
  | None => raise (HTTPException 500 "Failed to retrieve updated post")
  | Some row =>
      interests <~ get_post_interests post_id;
      let updated_post :=
        py_set "links" (PDict (add_links post_id ""))
          (py_set "interests" (PList interests) (Post.as_dict row)) in
      let updated_post := isoformat_created_at updated_post in
      let etag := generate_etag updated_post in
      return_post 200 [("ETag", PyStr.quoted etag)] updated_post
  end.

(** The handler from [# Build dynamic SQL for update] to its end. *)
Definition apply_update (post_id : Z) (post : PostUpdate.t) : M reply :=
  update_fields post_id post;;
  update_interests post_id post;;
  fetch_updated_post post_id.

Definition update_post (post_id : Z) (post : PostUpdate.t) (request : Request)
    (created_by : Z) (if_match : option string) : M reply :=
  firebase_uid <~ get_firebase_uid_from_header request;
  get_connection;;
  existing_post <~ fetch (SelectPost post_id) (Sql.select_post post_id);
  match existing_post with
  | None => close;; raise (HTTPException 404 "Post not found")
  | Some row =>
      if negb (Post.created_by row =? created_by)%Z then
        close;;
        raise (HTTPException 403 "You can only update posts you created")
      else
        check_if_match post_id row if_match;;
        apply_update post_id post
  end.

(** *** [DELETE /posts/{post_id}] *)

Definition delete_post (post_id : Z) (request : Request) (created_by : Z)
  : M reply :=
  firebase_uid <~ get_firebase_uid_from_header request;
  get_connection;;
  post <~ fetch (SelectCreatedBy post_id)
                (λ d, Post.created_by <$> Sql.select_post post_id d);
  match post with
  | None => close;; raise (HTTPException 404 "Post not found")
  | Some owner =>
      if negb (owner =? created_by)%Z then
        close;;
        raise (HTTPException 403 "You can only delete posts you created")
      else
        execute (DeletePost post_id);;
        commit;;
        close;;
        ret (mkReply 200 []
               (Some (PDict [("status", PStr "deleted");
                             ("post_id", PInt post_id)])))
  end.

(** *** [GET /posts/interests/] *)

Definition get_interests (request : Request) : M reply :=
  firebase_uid <~ get_firebase_uid_from_header request;
  get_connection;;
  interests <~ fetch SelectInterests Sql.select_interests;
  close;;
  ret (mkReply 200 [] (Some (PList (map interest_dict interests)))).

(** The routes of the router. *)
Inductive call :=
| GetPosts (skip limit : Z) (interest_id created_by : option Z)
           (search : option string)
| GetPost (post_id : Z) (if_none_match : option string)
| CreatePost (post : PostCreate.t)
| UpdatePostCall (post_id : Z) (post : PostUpdate.t) (created_by : Z)
                 (if_match : option string)
| DeletePostCall (post_id : Z) (created_by : Z)
| GetInterests.

Definition route (c : call) (request : Request) : M reply :=
  match c with
  | GetPosts skip limit i u q => get_posts request skip limit i u q
  | GetPost id inm => get_post id request inm
  | CreatePost post => create_post post request
  | UpdatePostCall id post u im => update_post id post request u im
  | DeletePostCall id u => delete_post id request u
  | GetInterests => get_interests request
  end.

(** ** The application ([main.py]) *)

Module App.
(** [GET /] and [GET /health]: the two probes the application adds next
    to the router; they take no request and reach no store. *)
Definition root : pydict := [("status", PStr "Feed Service running")].

Definition health_check : pydict :=
  [("status", PStr "healthy"); ("service", PStr "users")].
End App.

(** * Vocabulary of the statements *)

(** What serving a request yields. *)
Definition reply_of (out : reply * db * list event) : reply := out.1.1.
Definition store_of (out : reply * db * list event) : db := out.1.2.
Definition ops_of (out : reply * db * list event) : list event := out.2.

(** The caller-identity header is present and not empty. *)
Definition identified (request : Request) : bool :=
  PyStr.opt_truthy (headers_get request "x-firebase-uid").

(** The exception of the identity check. *)
Definition unauthenticated : exn :=
  HTTPException 401 "Authentication required - x-firebase-uid header missing".

(** [page["links"][rel]] of a listing, when there is one. *)
Definition link_of (rel : string) (page : option pydict) : option pyval :=
  match page ≫= py_get "links" with
  | Some (PDict links) => py_get rel links
  | _ => None
  end.

(** A text without the character that separates the parameters of a
    query string. *)
Fixpoint no_amp (s : string) : bool :=
  match s with
  | "" => true
  | String c s' => negb (Ascii.eqb c "&") && no_amp s'
  end.

(** A lower-case hexadecimal digit. *)
Definition is_hex (c : ascii) : bool :=
  bool_decide (c ∈ list_ascii_of_string "0123456789abcdef").

(** A header value without the quote characters at its two ends. *)
Definition stripped (header : string) : string :=
  PyStr.strip PyStr.dquote header.


(** The state [GET] fingerprints: the row, its interests, and the
    creation time as ISO text. *)
Definition enriched_state (d : db) (post_id : Z) (row : Post.t) : pydict :=
  isoformat_created_at (existing_state d post_id row).

(** The precondition lets the request through: no (truthy) [If-Match],
    or one that names the fingerprint of the stored state. *)
Definition precondition_holds (d : db) (post_id : Z) (row : Post.t)
    (if_match : option string) : bool :=
  negb (PyStr.opt_truthy if_match)
  || String.eqb (stripped (default "" if_match))
                (generate_etag (existing_state d post_id row)).

(** A store operation that changes nothing: no commit and no statement
    that writes. *)
Definition no_write (e : event) : Prop :=
  e ≠ Commit ∧ ∀ q, e = Execute q → is_write q = false.

(** The store operations of a log that write: the statements that change
    rows, and the commits. *)
Definition writing (e : event) : bool :=
  match e with
  | Commit => true
  | Execute q => is_write q
  | _ => false
  end.

Definition writes (ops : list event) : list event :=
  filter (λ e, Is_true (writing e)) ops.

(** The assignment a scalar field contributes. *)
Definition given (k : string) (f : field string) : list (string * string) :=
  match f with Given v => [(k, v)] | _ => [] end.

(** The store once the scalar fields of an update are committed. *)
Definition after_fields (post_id : Z) (post : PostUpdate.t) (d : db) : db :=
  let fields := assignments (PostUpdate.scalar_items post) in
  if is_nonempty fields then Sql.update_post fields post_id d else d.

(** The item built for a row of the page, given the committed store. *)
Definition item_of (d : db) (row : Post.t) : pyval :=
  let post := Post.as_dict row in
  let post_id := Post.post_id row in
  PDict (isoformat_created_at
           (if negb (post_id =? 0)%Z then
              py_set "links" (PDict (add_links post_id ""))
                (py_set "interests"
                   (PList (map interest_dict
                             (Sql.select_post_interests post_id d)))
                   post)
            else post)).

(** Every post found in [d] was in [d0] under the same id with the same
    creator. *)
Definition creators_from (d0 d : db) : Prop :=
  ∀ id r', Sql.select_post id d = Some r' →
    ∃ r, Sql.select_post id d0 = Some r
         ∧ Post.created_by r' = Post.created_by r.

(** A search text without the pattern characters of [LIKE]. *)
Fixpoint plain (s : string) : bool :=
  match s with
  | "" => true
  | String c s' =>
      negb (Ascii.eqb c "%") && negb (Ascii.eqb c "_")
      && negb (Ascii.eqb c PyStr.backslash) && plain s'
  end.

(** [needle] occurs in [hay] up to the case of ASCII letters. *)
Definition contains_ci (needle hay : string) : Prop :=
  ∃ pre mid post,
    hay = pre +:+ mid +:+ post ∧ PyStr.lower mid = PyStr.lower needle.

(** Equality of payloads as Python decides it for containers: lists
    element by element, dicts by size and by the value found under each
    key, whatever the insertion order; scalars are compared within their
    own type. *)
Fixpoint py_eqb (a b : pyval) : bool :=
  match a, b with
  | PNone, PNone => true
  | PBool x, PBool y => Bool.eqb x y
  | PInt x, PInt y => (x =? y)%Z
  | PStr x, PStr y => String.eqb x y
  | PDatetime x, PDatetime y => bool_decide (Datetime.key x = Datetime.key y)
  | PList xs, PList ys =>
      (fix go (xs ys : list pyval) : bool :=
         match xs, ys with
         | [], [] => true
         | x :: xs', y :: ys' => py_eqb x y && go xs' ys'
         | _, _ => false
         end) xs ys
  | PDict kvs, PDict kvs' =>
      (length kvs =? length kvs')%nat
      && forallb (λ kv, match py_get kv.1 kvs' with
                        | Some v' => py_eqb kv.2 v'
                        | None => false
                        end) kvs
  | _, _ => false
  end.

(** A dict holds each key once, at every depth. *)
Fixpoint keys_unique (v : pyval) : bool :=
  match v with
  | PList xs => forallb keys_unique xs
  | PDict kvs =>
      bool_decide (NoDup kvs.*1) && forallb (λ kv, keys_unique kv.2) kvs
  | _ => true
  end.

(** Running a computation with more history in the log gives the same
    result and the same stores. *)
Definition uniform {A} (m : M A) : Prop :=
  ∀ s l, m (mkSession (disk s) (txn s) (l ++ log s))
         = let '(r, s') := m s in
           (r, mkSession (disk s') (txn s') (l ++ log s')).

(** A property of stores holds of the committed store and of the open
    transaction; a computation keeps it when it holds afterwards whenever
    it held before. *)
Definition framed (P : db → Prop) (s : session) : Prop :=
  P (disk s) ∧ P (txn s).

Definition keeps (P : db → Prop) {A} (m : M A) : Prop :=
  ∀ s, framed P s → framed P (m s).2.

(** A computation that leaves the committed store alone and performs no
    write: whatever it adds to the log is free of writes and commits. *)
Definition quiet {A} (m : M A) : Prop :=
  ∀ s, disk (m s).2 = disk s
       ∧ ∃ l, log (m s).2 = log s ++ l ∧ Forall no_write l.

(** A field sent as [null] read as a field left out. *)
Definition unnull {A} (f : field A) : field A :=
  match f with Null => Unset | _ => f end.

Definition drop_nulls (post : PostUpdate.t) : PostUpdate.t :=
  PostUpdate.mk (unnull (PostUpdate.title post)) (unnull (PostUpdate.body post))
                (unnull (PostUpdate.image_url post))
                (unnull (PostUpdate.interest_ids post)).

(** The association rows of a post replaced by one row per id. *)
Definition relinked (post_id : Z) (ids : list Z) (d : db) : list (Z * Z) :=
  filter (λ pi, pi.1 ≠ post_id) (PostInterests d)
    ++ map (λ i, (post_id, i)) ids.

(** Every post found in [d] was in [d0] under the same id, with the same
    creator and the same creation time. *)
Definition origins_from (d0 d : db) : Prop :=
  ∀ id r', Sql.select_post id d = Some r' →
    ∃ r, Sql.select_post id d0 = Some r
         ∧ Post.post_id r' = Post.post_id r
         ∧ Post.created_by r' = Post.created_by r
         ∧ Post.created_at r' = Post.created_at r.

(** The number of rows a page holds for a count, an offset and a limit. *)
Definition page_size (total skip limit : Z) : Z :=
  Z.min limit (Z.max 0 (total - skip)).

(** Every exception a computation raises is answered with a status in
    [S]; every outcome of a handler is answered with a status in [S]. *)
Definition raises (S : Z → Prop) {A} (m : M A) : Prop :=
  ∀ s e s', m s = (Raise e, s') → S (status (respond (Raise e))).

Definition answers (S : Z → Prop) (m : M reply) : Prop :=
  ∀ s, S (status (respond (m s).1)).

(** The statuses a route can answer with. *)
Definition statuses (c : call) : list Z :=
  match c with
  | GetPosts _ _ _ _ _ => [200; 401; 422]
  | GetPost _ _ => [200; 304; 404; 500]
  | CreatePost _ => [401; 500]
  | UpdatePostCall _ _ _ _ => [200; 400; 401; 403; 404; 412; 500]
  | DeletePostCall _ _ => [200; 401; 403; 404]
  | GetInterests => [200; 401]
  end%Z.

(** The routes that only read. *)
Definition reads_only (c : call) : bool :=
  match c with
  | GetPosts _ _ _ _ _ | GetPost _ _ | GetInterests => true
  | _ => false
  end.

(** The query parameters of a call are within the bounds its route
    declares. *)
Definition accepted (c : call) : bool :=
  match c with
  | GetPosts skip limit _ _ _ =>
      (0 <=? skip)%Z && (1 <=? limit)%Z && (limit <=? 100)%Z
  | _ => true
  end.

(** A link object with the given target. *)
Definition link (url : string) : pyval := PDict [("href", PStr url)].

(** The link to the page of the listing at an offset. *)
Definition page_link (skip limit : Z) : pyval :=
  link ("/posts?skip=" +:+ pretty skip +:+ "&limit=" +:+ pretty limit).

(** The pagination record of a listing, as section 4.5 of the
    specification words it: the count, [has_more], and the links [next],
    [prev] and [last] with their offsets. *)
Definition paginated (total skip limit : Z) (page : pydict) : Prop :=
  ∃ links,
    py_get "total" page = Some (PInt total)
    ∧ py_get "has_more" page = Some (PBool (bool_decide (skip + limit < total)%Z))
    ∧ py_get "links" page = Some (PDict links)
    ∧ py_get "next" links
      = Some (if bool_decide (skip + limit < total)%Z
              then page_link (skip + limit) limit else PNone)
    ∧ py_get "prev" links
      = Some (if bool_decide (0 < skip)%Z
              then page_link (Z.max 0 (skip - limit)) limit else PNone)
    ∧ py_get "last" links
      = Some (page_link (Z.max 0 ((total - 1) / limit * limit)) limit).

(** The four links of a post. *)
Definition post_links (post_id : Z) : pyval :=
  PDict [("self", link ("/posts/" +:+ pretty post_id));
         ("collection", link "/posts");
         ("interests", link ("/posts/" +:+ pretty post_id +:+ "/interests"));
         ("author", link ("/users/" +:+ pretty post_id))].

(** The interests linked to a post, as the responses show them. *)
Definition shown_interests (d : db) (post_id : Z) : pyval :=
  PList (map interest_dict (Sql.select_post_interests post_id d)).

(** The state of a post that [GET] fingerprints: the columns of the row
    in the order of the query, the creation time as ISO text when there
    is one, and the interests. *)
Definition fingerprinted (d : db) (row : Post.t) : pydict :=
  [("post_id", PInt (Post.post_id row));
   ("title", PStr (Post.title row));
   ("body", Post.opt_str (Post.body row));
   ("image_url", Post.opt_str (Post.image_url row));
   ("created_by", PInt (Post.created_by row));
   ("created_at", match Post.created_at row with
                  | Some t => PStr (Datetime.isoformat t)
                  | None => PNone
                  end);
   ("interests", shown_interests d (Post.post_id row))].

(** The body that shows a post: the fields in the order of the response
    schema, the creation time as ISO text, the interests and the links. *)
Definition resource (d : db) (row : Post.t) (created_at : datetime) : pydict :=
  [("title", PStr (Post.title row));
   ("body", Post.opt_str (Post.body row));
   ("image_url", Post.opt_str (Post.image_url row));
   ("post_id", PInt (Post.post_id row));
   ("created_by", PInt (Post.created_by row));
   ("created_at", PStr (Datetime.isoformat created_at));
   ("interests", shown_interests d (Post.post_id row));
   ("links", post_links (Post.post_id row))].

(** The row once the fields a payload sends with a value are assigned. *)
Definition pick {A} (f : field A) (old : A) : A :=
  match f with Given v => v | _ => old end.

Definition assigned (post : PostUpdate.t) (r : Post.t) : Post.t :=
  Post.mk (Post.post_id r)
          (pick (PostUpdate.title post) (Post.title r))
          (match PostUpdate.body post with
           | Given v => Some v | _ => Post.body r end)
          (match PostUpdate.image_url post with
           | Given v => Some v | _ => Post.image_url r end)
          (Post.created_by r) (Post.created_at r).

(** Two stores hold the same tables; the server may line up equal rows
    differently in each. *)
Definition same_tables (d d' : db) : Prop :=
  Posts d = Posts d' ∧ Interests d = Interests d'
  ∧ PostInterests d = PostInterests d'.

(** The store with another choice of the server for the rows its order
    leaves equal. *)
Definition retied (code : list nat) (d : db) : db :=
  mkDb (Posts d) (Interests d) (PostInterests d) (next_post_id d) (clock d)
       code.

(** The rows a listing matches, and the items of a listing body. *)
Definition matching (w : list clause) (d : db) : list Post.t :=
  filter (λ r, Is_true (Sql.where_ d w r)) (Posts d).


(** ** A sample store and sample callers *)

Module Sample.
Open Scope Z_scope.

Definition noon : datetime := mkDatetime 2024 1 2 12 0 0 0.

Definition store : db :=
  mkDb [Post.mk 1 "Hello" (Some "World") None 7 (Some noon);
        Post.mk 2 "Other" None None 5 (Some (mkDatetime 2024 1 3 0 0 0 0))]
       [(1, "go"); (2, "art")]
       [(1, 2); (1, 1)]
       3 noon [].

Definition first_row : Post.t :=
  Post.mk 1 "Hello" (Some "World") None 7 (Some noon).

Definition second_row : Post.t :=
  Post.mk 2 "Other" None None 5 (Some (mkDatetime 2024 1 3 0 0 0 0)).

(** A store whose only post has no creation time. *)
Definition undated_row : Post.t := Post.mk 4 "Draft" (Some "soon") None 7 None.

Definition undated : db := mkDb [undated_row] [(1, "go")] [(4, 1)] 5 noon [].

(** A store whose three posts were created at the same time. *)
(** A store of 150 posts. *)
Definition crowd : db :=
  mkDb (map (λ n, Post.mk (Z.of_nat n) "Post" None None 7 (Some noon))
            (seq 1 150))
       [] [] 151 noon [].

Definition tied : db :=
  mkDb [Post.mk 1 "A" None None 7 (Some noon);
        Post.mk 2 "B" None None 7 (Some noon);
        Post.mk 3 "C" None None 7 (Some noon)] [] [] 4 noon [].

Definition gateway : Request := mkRequest [("X-Firebase-UID", "u1")].
Definition anonymous : Request := mkRequest [("accept", "*/*")].
Definition blank : Request := mkRequest [("x-firebase-uid", "")].
End Sample.

(** * Properties *)

(** ** The library models against known values *)

Example md5_of_empty :
  MD5.hexdigest (utf8_encode "") = "d41d8cd98f00b204e9800998ecf8427e".
Proof. by vm_compute. Qed.

Example md5_of_abc :
  MD5.hexdigest (utf8_encode "abc") = "900150983cd24fb0d6963f7d28e17f72".
Proof. by vm_compute. Qed.

Example md5_of_two_blocks :
  MD5.hexdigest (utf8_encode (PyStr.replicate 70 "a"))
  = "0f5c6c4e740bfcc08c3c26ccb2673d46".
Proof. by vm_compute. Qed.

(** The fuel of [MD5.blocks] is enough: the blocks cover the message. *)
Lemma blocks_cover fuel bs :
  (length bs ≤ fuel)%nat → concat (MD5.blocks fuel bs) = bs.
Proof.
  revert bs. induction fuel as [|fuel IH]; intros [|b bs] Hl; try done.
  { simpl in Hl. lia. }
  change (MD5.blocks (S fuel) (b :: bs))
    with (take 64 (b :: bs) :: MD5.blocks fuel (drop 64 (b :: bs))).
  simpl concat. rewrite IH; [by rewrite take_drop|].
  rewrite length_drop. simpl in *. lia.
Qed.

Example dumps_sorts_and_escapes :
  Json.dumps (PDict [("title", PStr (String "233" (String "010" "x")));
                     ("post_id", PInt (-3));
                     ("created_at",
                        PDatetime (mkDatetime 2024 1 2 3 4 5 7));
                     ("tags", PList [PNone; PBool true])])
  = "{" +:+ PyStr.quoted "created_at" +:+ ": "
        +:+ PyStr.quoted "2024-01-02 03:04:05.000007" +:+ ", "
        +:+ PyStr.quoted "post_id" +:+ ": -3, "
        +:+ PyStr.quoted "tags" +:+ ": [null, true], "
        +:+ PyStr.quoted "title" +:+ ": "
        +:+ PyStr.quoted (String PyStr.backslash "u00e9"
                            +:+ String PyStr.backslash "nx")
        +:+ "}".
Proof. by vm_compute. Qed.

(** ** Text *)

Lemma app_cons c s t : String c s +:+ t = String c (s +:+ t).
Proof. done. Qed.

Lemma app_empty_r s : s +:+ "" = s.
Proof. induction s as [|c s IH]; [done|]. by rewrite app_cons, IH. Qed.

(** ** Sequencing *)

Lemma bind_return {A B} (m : M A) (k : A → M B) s a s' :
  m s = (Return a, s') → bind m k s = k a s'.
Proof. intros H. unfold bind. by rewrite H. Qed.

Lemma bind_raise {A B} (m : M A) (k : A → M B) s e s' :
  m s = (Raise e, s') → bind m k s = (Raise e, s').
Proof. intros H. unfold bind. by rewrite H. Qed.

(** ** Identity header *)

Lemma headers_get_any_case request :
  headers_get request "X-Firebase-Uid" = headers_get request "x-firebase-uid".
Proof. reflexivity. Qed.

Lemma identity_accepted request s :
  identified request = true →
  ∃ uid, get_firebase_uid_from_header request s = (Return uid, s).
Proof.
  unfold identified, get_firebase_uid_from_header, py_or.
  rewrite headers_get_any_case. intros H. rewrite H.
  destruct (headers_get request "x-firebase-uid") as [uid|]; [|done].
  simpl in H. rewrite H. by exists uid.
Qed.

Lemma identity_required request s :
  identified request = false →
  get_firebase_uid_from_header request s = (Raise unauthenticated, s).
Proof.
  unfold identified, get_firebase_uid_from_header, py_or.
  rewrite headers_get_any_case. intros H. rewrite H.
  destruct (headers_get request "x-firebase-uid") as [uid|]; [|done].
  simpl in H. by rewrite H.
Qed.

Lemma query_errors_nil skip limit :
  query_errors skip limit = []
  ↔ (0 ≤ skip)%Z ∧ (1 ≤ limit)%Z ∧ (limit ≤ 100)%Z.
Proof.
  unfold query_errors.
  destruct (Z.leb_spec 0 skip), (Z.leb_spec 1 limit), (Z.leb_spec limit 100);
    simpl; split; try done; lia.
Qed.

Lemma check_query_accepts skip limit s :
  (0 ≤ skip)%Z → (1 ≤ limit)%Z → (limit ≤ 100)%Z →
  check_query skip limit s = (Return tt, s).
Proof.
  intros H1 H2 H3. unfold check_query.
  by rewrite (proj2 (query_errors_nil skip limit)).
Qed.

Lemma check_query_refuses skip limit s :
  query_errors skip limit ≠ [] →
  check_query skip limit s
  = (Raise (RequestValidationError (query_errors skip limit)), s).
Proof. unfold check_query. by destruct (query_errors skip limit). Qed.

Lemma accepted_get_posts skip limit i u q :
  accepted (GetPosts skip limit i u q) = true
  ↔ (0 ≤ skip)%Z ∧ (1 ≤ limit)%Z ∧ (limit ≤ 100)%Z.
Proof. simpl. rewrite !andb_true_iff, !Z.leb_le. tauto. Qed.

(** Every route of the router that starts with the identity check, that
    is every one but the read of a single post, answers 401 to an
    unidentified request whose query parameters are within their bounds,
    before any store operation. *)
Lemma guarded_routes_require_identity c request d :
  identified request = false →
  accepted c = true →
  (∀ id inm, c ≠ GetPost id inm) →
  serve (route c request) d = (respond (Raise unauthenticated), d, []).
Proof.
  intros H Ha Hc. unfold serve.
  destruct c; simpl;
    [unfold get_posts|by destruct (Hc post_id if_none_match)|unfold create_post
    |unfold update_post|unfold delete_post|unfold get_interests];
    unfold bind; try by rewrite (identity_required _ _ H).
  apply accepted_get_posts in Ha as (? & ? & ?).
  rewrite check_query_accepts by done. by rewrite (identity_required _ _ H).
Qed.

(** ** Links *)

Lemma href_inj a b : href a = href b → a = b.
Proof. by intros [= ->]. Qed.


(** ** Pagination *)

Lemma bool_decide_ltb a b : (a <? b)%Z = bool_decide (a < b)%Z.
Proof. case_bool_decide; lia. Qed.

(** The pagination record, field by field, for a limit of at least 1. *)
Lemma listing_pagination posts total skip limit :
  (1 ≤ limit)%Z →
  let last := Z.max 0 ((total - 1) / limit * limit) in
  ∃ body links,
    listing posts total skip limit = Some body
    ∧ py_get "items" body = Some (PList posts)
    ∧ py_get "total" body = Some (PInt total)
    ∧ py_get "has_more" body = Some (PBool (bool_decide (skip + limit < total)%Z))
    ∧ py_get "links" body = Some (PDict links)
    ∧ py_get "next" links
      = Some (if bool_decide (skip + limit < total)%Z
              then page_link (skip + limit) limit else PNone)
    ∧ py_get "prev" links
      = Some (if bool_decide (0 < skip)%Z
              then page_link (Z.max 0 (skip - limit)) limit else PNone)
    ∧ py_get "last" links = Some (page_link last limit)
    ∧ (0 ≤ last)%Z
    ∧ ((0 < total)%Z →
       (last mod limit = 0 ∧ last < total ∧ total ≤ last + limit)%Z).
Proof.
  intros Hl last. unfold listing, floordiv.
  assert ((limit =? 0)%Z = false) as -> by lia. simpl.
  rewrite !bool_decide_ltb. do 2 eexists. split_and!; try done; [lia|].
  intros Ht.
  assert (0 ≤ (total - 1) / limit)%Z as Hq by (apply Z.div_pos; lia).
  assert (last = limit * ((total - 1) / limit))%Z as -> by lia.
  pose proof (Z.mul_div_le (total - 1) limit ltac:(lia)).
  pose proof (Z.mul_succ_div_gt (total - 1) limit ltac:(lia)).
  split_and!; [|lia..].
  rewrite Z.mul_comm. apply Z.mod_mul; lia.
Qed.

(** ** Store invariants along a handler *)

(** A property of stores that the statements the handlers can reach keep
    is kept by the committed store across every request. *)
Section Frame.
Variable P : db → Prop.

Lemma keeps_ret {A} (a : A) : keeps P (ret a).
Proof. by intros s. Qed.

Lemma keeps_raise {A} e : keeps P (@raise A e).
Proof. by intros s. Qed.

Lemma keeps_bind {A B} (m : M A) (k : A → M B) :
  keeps P m → (∀ a, keeps P (k a)) → keeps P (bind m k).
Proof.
  intros Hm Hk s Hs. unfold bind. specialize (Hm s Hs).
  destruct (m s) as [[a|e] s']; [by apply Hk|done].
Qed.

Lemma keeps_get_connection : keeps P get_connection.
Proof. by intros s [??]. Qed.

Lemma keeps_fetch {A} q (f : db → A) : keeps P (fetch q f).
Proof. by intros s. Qed.

Lemma keeps_commit : keeps P commit.
Proof. by intros s [??]. Qed.

Lemma keeps_close : keeps P close.
Proof. by intros s. Qed.

Lemma keeps_get_post_interests id : keeps P (get_post_interests id).
Proof. by intros s. Qed.

Lemma keeps_identity request : keeps P (get_firebase_uid_from_header request).
Proof.
  intros s Hs. destruct (identified request) eqn:E.
  - by destruct (identity_accepted request s E) as [uid ->].
  - by rewrite (identity_required request s E).
Qed.

Lemma keeps_check_query skip limit : keeps P (check_query skip limit).
Proof. intros s Hs. unfold check_query. by destruct (query_errors skip limit). Qed.

Lemma keeps_return_post code hs post : keeps P (return_post code hs post).
Proof. intros s Hs. unfold return_post. by destruct (PostResponse.serialize post). Qed.

Lemma keeps_mapM {A B} (f : A → M B) l : (∀ a, keeps P (f a)) → keeps P (mapM f l).
Proof.
  intros Hf. induction l as [|a l IH]; simpl; [apply keeps_ret|].
  apply keeps_bind; [done|]. intros b.
  apply keeps_bind; [done|]. intros bs. apply keeps_ret.
Qed.

Lemma keeps_enrich_item row : keeps P (enrich_item row).
Proof.
  unfold enrich_item. apply keeps_bind; [|intros; apply keeps_ret].
  case_match; [|apply keeps_ret].
  apply keeps_bind; [apply keeps_get_post_interests|intros; apply keeps_ret].
Qed.

(** The rows the handlers change are changed by these statements. *)
Hypothesis P_update : ∀ a id d, P d → P (Sql.update_post a id d).
Hypothesis P_delete : ∀ id d, P d → P (Sql.delete_post id d).
Hypothesis P_unlink : ∀ id d, P d → P (Sql.delete_post_interests id d).
Hypothesis P_link : ∀ p i d, P d → P (Sql.insert_post_interest p i d).

Lemma keeps_execute q :
  (∀ t b i c, q ≠ InsertPost t b i c) → keeps P (execute q).
Proof.
  intros Hq s [Hd Ht]. unfold execute, framed.
  destruct q; simpl; try (by destruct (Hq title body image_url created_by));
    try case_match; simpl; split; auto.
  case_match; simplify_eq. auto.
Qed.

Lemma keeps_associate_interests p ids : keeps P (associate_interests p ids).
Proof.
  induction ids as [|i ids IH]; simpl; [apply keeps_ret|].
  apply keeps_bind; [apply keeps_fetch|]. intros [found|].
  - apply keeps_bind; [by apply keeps_execute|done].
  - apply keeps_bind; [apply keeps_close|intros; apply keeps_raise].
Qed.

Lemma keeps_route c request : keeps P (route c request).
Proof.
  destruct c; simpl.
  - unfold get_posts.
    repeat (apply keeps_bind; [first
      [apply keeps_check_query|apply keeps_identity|apply keeps_get_connection
      |apply keeps_fetch|apply keeps_close
      |apply keeps_mapM, keeps_enrich_item]|intros]).
    case_match; [apply keeps_ret|apply keeps_raise].
  - unfold get_post.
    repeat (apply keeps_bind; [first
      [apply keeps_get_connection|apply keeps_fetch|apply keeps_close]
      |intros]).
    case_match; [|apply keeps_raise].
    apply keeps_bind; [apply keeps_get_post_interests|intros].
    case_match; [apply keeps_ret|apply keeps_return_post].
  - unfold create_post.
    repeat (apply keeps_bind; [first
      [apply keeps_identity|apply keeps_get_connection]|intros]).
    apply keeps_raise.
  - unfold update_post.
    repeat (apply keeps_bind; [first
      [apply keeps_identity|apply keeps_get_connection|apply keeps_fetch]
      |intros]).
    case_match;
      [|apply keeps_bind; [apply keeps_close|intros; apply keeps_raise]].
    case_match;
      [apply keeps_bind; [apply keeps_close|intros; apply keeps_raise]|].
    apply keeps_bind; [|intros _].
    { unfold check_if_match. case_match; [|apply keeps_ret].
      apply keeps_bind; [apply keeps_get_post_interests|intros].
      case_match; [|apply keeps_ret].
      apply keeps_bind; [apply keeps_close|intros; apply keeps_raise]. }
    unfold apply_update. apply keeps_bind; [|intros _].
    { unfold update_fields. case_match; [|apply keeps_ret].
      apply keeps_bind; [by apply keeps_execute|intros; apply keeps_commit]. }
    apply keeps_bind; [|intros _].
    { unfold update_interests. case_match; [|apply keeps_ret].
      apply keeps_bind; [by apply keeps_execute|intros _].
      apply keeps_bind;
        [apply keeps_associate_interests|intros; apply keeps_commit]. }
    unfold fetch_updated_post.
    repeat (apply keeps_bind; [first [apply keeps_fetch|apply keeps_close]
                              |intros]).
    case_match; [|apply keeps_raise].
    apply keeps_bind;
      [apply keeps_get_post_interests|intros; apply keeps_return_post].
  - unfold delete_post.
    repeat (apply keeps_bind; [first
      [apply keeps_identity|apply keeps_get_connection|apply keeps_fetch]
      |intros]).
    case_match;
      [|apply keeps_bind; [apply keeps_close|intros; apply keeps_raise]].
    case_match;
      [apply keeps_bind; [apply keeps_close|intros; apply keeps_raise]|].
    apply keeps_bind; [by apply keeps_execute|intros _].
    repeat (apply keeps_bind; [first [apply keeps_commit|apply keeps_close]
                              |intros]).
    apply keeps_ret.
  - unfold get_interests.
    repeat (apply keeps_bind; [first
      [apply keeps_identity|apply keeps_get_connection|apply keeps_fetch
      |apply keeps_close]|intros]).
    apply keeps_ret.
Qed.

Lemma serve_route_keeps c request d : P d → P (serve (route c request) d).1.2.
Proof.
  intros Hd. unfold serve.
  pose proof (keeps_route c request (mkSession d d []) (conj Hd Hd)) as [H _].
  by destruct (route c request (mkSession d d [])).
Qed.
End Frame.

(** ** The token is 32 hexadecimal digits *)

Lemma hex_digit_is_hex n : is_hex (Json.hex_digit n) = true.
Proof. unfold Json.hex_digit. by repeat case_match. Qed.

Lemma digest_length msg : length (MD5.digest msg) = 16%nat.
Proof.
  unfold MD5.digest.
  destruct (foldl MD5.compress MD5.init _) as [[[a b] c] e]. reflexivity.
Qed.

Lemma concat_hex_bytes l :
  String.length (String.concat "" (map MD5.hex_byte l)) = (2 * length l)%nat
  ∧ forallb is_hex
      (list_ascii_of_string (String.concat "" (map MD5.hex_byte l))) = true.
Proof.
  induction l as [|b l [IHl IHh]]; [done|].
  assert (String.concat "" (map MD5.hex_byte (b :: l))
          = MD5.hex_byte b +:+ String.concat "" (map MD5.hex_byte l)) as ->.
  { simpl. destruct (map MD5.hex_byte l); [|done].
    unfold MD5.hex_byte. simpl. done. }
  assert (∀ s, MD5.hex_byte b +:+ s
               = String (Json.hex_digit (b / 16 mod 16))
                   (String (Json.hex_digit (b mod 16)) s)) as -> by done.
  simpl. rewrite IHl, IHh, !hex_digit_is_hex. split; [lia|done].
Qed.

Lemma generate_etag_hex data :
  String.length (generate_etag data) = 32%nat
  ∧ forallb is_hex (list_ascii_of_string (generate_etag data)) = true.
Proof.
  unfold generate_etag, MD5.hexdigest.
  destruct (concat_hex_bytes (MD5.digest (utf8_encode (Json.dumps (PDict data)))))
    as [Hl Hh].
  by rewrite Hl, digest_length.
Qed.

Lemma generate_etag_nonempty data : generate_etag data ≠ "".
Proof.
  intros E. pose proof (generate_etag_hex data) as [H _].
  by rewrite E in H.
Qed.

(** ** Determinism of the fingerprint *)

(** Induction over values that reaches into lists and dicts. *)
Lemma pyval_nested_ind (P : pyval → Prop) :
  P PNone → (∀ b, P (PBool b)) → (∀ n, P (PInt n)) → (∀ s, P (PStr s)) →
  (∀ d, P (PDatetime d)) →
  (∀ xs, Forall P xs → P (PList xs)) →
  (∀ kvs, Forall (λ kv, P kv.2) kvs → P (PDict kvs)) →
  ∀ v, P v.
Proof.
  intros HN HB HI HS HD HL HK. fix IH 1.
  intros [| | | | |xs|kvs];
    [exact HN|apply HB|apply HI|apply HS|apply HD| |].
  - apply HL. induction xs as [|x xs IHxs]; constructor; [apply IH|apply IHxs].
  - apply HK. induction kvs as [|[k v] kvs IHk]; constructor;
      [apply IH|apply IHk].
Qed.

Lemma datetime_key_inj x y : Datetime.key x = Datetime.key y → x = y.
Proof. destruct x, y. unfold Datetime.key. simpl. by intros [= -> -> -> -> -> -> ->]. Qed.

#[local] Instance key_le_trans : Transitive Json.key_le.
Proof. intros a b c. unfold Json.key_le. apply transitivity. Qed.

#[local] Instance key_le_total : Total Json.key_le.
Proof. intros a b. unfold Json.key_le. apply total, _. Qed.

Lemma unique_key_value {A} (l : list (string * A)) k a b :
  NoDup l.*1 → (k, a) ∈ l → (k, b) ∈ l → a = b.
Proof.
  induction l as [|[k' v] l IH]; simpl; [by intros _ ?%elem_of_nil|].
  intros [Hk Hnd]%NoDup_cons [Ha|Ha]%elem_of_cons [Hb|Hb]%elem_of_cons.
  - congruence.
  - injection Ha as -> ->. destruct Hk.
    apply list_elem_of_fmap. by exists (k', b).
  - injection Hb as -> ->. destruct Hk.
    apply list_elem_of_fmap. by exists (k', a).
  - by apply IH.
Qed.

(** Sorting by key forgets the order in which the keys were inserted. *)
Lemma sort_items_permutation l1 l2 :
  NoDup l1.*1 → l1 ≡ₚ l2 → Json.sort_items l1 = Json.sort_items l2.
Proof.
  intros Hnd Hp. unfold Json.sort_items.
  apply (Sorted_unique_strong Json.key_le).
  - intros [k1 v1] [k2 v2] H1 H2 H12 H21.
    rewrite merge_sort_Permutation in H1, H2. rewrite <-Hp in H2.
    unfold Json.key_le in *. simpl in *.
    assert (k1 = k2) as -> by (by apply (anti_symm String.le)).
    f_equal. by eapply unique_key_value.
  - apply Sorted_merge_sort, _.
  - apply Sorted_merge_sort, _.
  - by rewrite !merge_sort_Permutation.
Qed.

Lemma py_get_elem k d v : py_get k d = Some v → (k, v) ∈ d.
Proof.
  induction d as [|[k' v'] d IH]; simpl; [done|].
  destruct (String.eqb k' k) eqn:E.
  - apply String.eqb_eq in E as ->. intros [= ->]. left.
  - intros H. right. by apply IH.
Qed.

Lemma dumps_respects_equality a :
  ∀ b, keys_unique a = true → keys_unique b = true → py_eqb a b = true →
       Json.dumps a = Json.dumps b.
Proof.
  induction a as [|x|x|x|x|xs IH|kvs IH] using pyval_nested_ind;
    intros [|y|y|y|y|ys|kvs'] Ha Hb E; try done.
  - simpl in E. apply Bool.eqb_prop in E. by subst.
  - simpl in E. apply Z.eqb_eq in E. by subst.
  - simpl in E. apply String.eqb_eq in E. by subst.
  - simpl in E. apply bool_decide_eq_true in E.
    by rewrite (datetime_key_inj _ _ E).
  - simpl in Ha, Hb. simpl. do 3 f_equal.
    simpl in E. revert ys Hb E.
    induction IH as [|x xs Hx _ IHxs]; intros [|y ys] Hb E; try done.
    simpl in Ha, Hb.
    apply andb_true_iff in Ha as [Hxa Ha], Hb as [Hyb Hb], E as [Exy E].
    simpl. f_equal; [by apply Hx|by apply IHxs].
  - simpl in Ha, Hb.
    apply andb_true_iff in Ha as [Hka%bool_decide_eq_true Ha].
    apply andb_true_iff in Hb as [Hkb%bool_decide_eq_true Hb].
    simpl in E. apply andb_true_iff in E as [Elen%Nat.eqb_eq E].
    rewrite forallb_forall in Ha, Hb, E. rewrite Forall_forall in IH.
    simpl. do 4 f_equal.
    set (enc := λ kv : string * pyval, (kv.1, Json.dumps kv.2)).
    assert ((map enc kvs).*1 = kvs.*1) as Hkeys.
    { clear. induction kvs as [|[k v] kvs IHk]; [done|]. simpl. by f_equal. }
    apply sort_items_permutation; [by rewrite Hkeys|].
    apply submseteq_length_Permutation; [|by rewrite !length_map, Elen].
    apply NoDup_submseteq.
    + apply (NoDup_fmap_1 fst). by rewrite Hkeys.
    + intros [k s] Hks. apply list_elem_of_fmap in Hks as ([k0 v] & [= -> ->] & Hin).
      simpl. specialize (E _ (proj1 (list_elem_of_In _ _) Hin)). simpl in E.
      destruct (py_get k0 kvs') as [v'|] eqn:Hget; [|done].
      apply py_get_elem in Hget.
      apply list_elem_of_fmap. exists (k0, v'). split; [|done].
      unfold enc. simpl. f_equal.
      apply (IH _ Hin); [|by apply (Hb (k0, v')), list_elem_of_In|done].
      by apply (Ha (k0, v)), list_elem_of_In.
Qed.

(** C2: two payloads that are equal as Python dicts, each key held once,
    get the same token whatever the order in which their keys were
    inserted, and the token is 32 hexadecimal digits. *)
Theorem generate_etag_deterministic (a b : pydict) :
  keys_unique (PDict a) = true →
  keys_unique (PDict b) = true →
  py_eqb (PDict a) (PDict b) = true →
  generate_etag a = generate_etag b
  ∧ String.length (generate_etag a) = 32%nat
  ∧ forallb is_hex (list_ascii_of_string (generate_etag a)) = true.
Proof.
  intros Ha Hb E. split; [|apply generate_etag_hex].
  unfold generate_etag. by rewrite (dumps_respects_equality _ _ Ha Hb E).
Qed.

Lemma generate_etag_deterministic_witness :
  generate_etag [("title", PStr "Hello"); ("post_id", PInt 1);
                 ("links", PDict [("self", href "/posts/1");
                                  ("author", href "/users/1")])]
  = generate_etag [("post_id", PInt 1);
                   ("links", PDict [("author", href "/users/1");
                                    ("self", href "/posts/1")]);
                   ("title", PStr "Hello")].
Proof.
  by apply generate_etag_deterministic.
Defined.

(** The token does not depend on the order of the keys. *)
Lemma generate_etag_permutation a b :
  NoDup a.*1 → a ≡ₚ b → generate_etag a = generate_etag b.
Proof.
  intros Hnd Hp. unfold generate_etag. do 2 f_equal.
  cbn [Json.dumps]. do 4 f_equal.
  apply sort_items_permutation; [|by apply fmap_Permutation].
  by rewrite <-list_fmap_compose.
Qed.

(** ** Ownership *)

Lemma select_post_id id d r : Sql.select_post id d = Some r → Post.post_id r = id.
Proof.
  unfold Sql.select_post. intros H. apply find_some in H as [_ H]. lia.
Qed.

Lemma set_columns_keep r a :
  Post.post_id (foldl Sql.set_column r a) = Post.post_id r
  ∧ Post.created_by (foldl Sql.set_column r a) = Post.created_by r
  ∧ Post.created_at (foldl Sql.set_column r a) = Post.created_at r.
Proof.
  revert r. induction a as [|cv a IH]; intros r; [done|].
  change (foldl Sql.set_column r (cv :: a))
    with (foldl Sql.set_column (Sql.set_column r cv) a).
  destruct (IH (Sql.set_column r cv)) as (-> & -> & ->).
  destruct cv as [c v]. unfold Sql.set_column. by repeat case_match.
Qed.

Lemma select_post_update a pid id d :
  Sql.select_post id (Sql.update_post a pid d)
  = (λ r, if (Post.post_id r =? pid)%Z then foldl Sql.set_column r a else r)
      <$> Sql.select_post id d.
Proof.
  unfold Sql.select_post, Sql.update_post. simpl.
  induction (Posts d) as [|r l IH]; [done|]. simpl.
  assert (Post.post_id (if (Post.post_id r =? pid)%Z
                        then foldl Sql.set_column r a else r)
          = Post.post_id r) as ->.
  { case_match; [|done]. apply set_columns_keep. }
  by case_match.
Qed.

Lemma select_post_delete pid id d :
  Sql.select_post id (Sql.delete_post pid d)
  = if decide (id = pid) then None else Sql.select_post id d.
Proof.
  unfold Sql.select_post, Sql.delete_post. simpl.
  induction (Posts d) as [|r l IH]; [by case_decide|].
  rewrite filter_cons. simpl.
  destruct (decide (Post.post_id r ≠ pid)) as [Hne|Heq]; simpl.
  - rewrite IH. destruct (Post.post_id r =? id)%Z eqn:E; [|done].
    case_decide; [lia|done].
  - rewrite IH. case_decide; [done|].
    destruct (Post.post_id r =? id)%Z eqn:E; [lia|done].
Qed.

Lemma creators_from_refl d : creators_from d d.
Proof. intros id r' H. by exists r'. Qed.

Lemma creators_from_update d0 a pid d :
  creators_from d0 d → creators_from d0 (Sql.update_post a pid d).
Proof.
  intros H id r'. rewrite select_post_update.
  destruct (Sql.select_post id d) as [r|] eqn:E; [|done]. intros [= <-].
  destruct (H id r E) as (r0 & ? & Hc). exists r0. split; [done|].
  rewrite <-Hc. case_match; [apply set_columns_keep|done].
Qed.

Lemma creators_from_delete d0 pid d :
  creators_from d0 d → creators_from d0 (Sql.delete_post pid d).
Proof.
  intros H id r'. rewrite select_post_delete. case_decide; [done|]. apply H.
Qed.

(** C6: an update or a delete whose [created_by] is not the stored
    creator of the (existing) post is answered 403 and leaves the whole
    store as it was; and whatever route is called, a post found afterwards
    was there before with the same creator. *)
Theorem creator_guard :
  (∀ d request post_id row created_by,
     identified request = true →
     Sql.select_post post_id d = Some row →
     Post.created_by row ≠ created_by →
     (∀ post if_match,
        let out := serve (update_post post_id post request created_by if_match) d in
        status (reply_of out) = 403%Z ∧ store_of out = d
        ∧ Forall (λ e, ∀ q, e = Execute q → is_write q = false) (ops_of out))
     ∧ (let out := serve (delete_post post_id request created_by) d in
        status (reply_of out) = 403%Z ∧ store_of out = d
        ∧ Forall (λ e, ∀ q, e = Execute q → is_write q = false) (ops_of out)))
  ∧ (∀ c request d, creators_from d (store_of (serve (route c request) d))).
Proof.
  split.
  - intros d request post_id row created_by Hid Hsel Hne.
    assert (negb (Post.created_by row =? created_by)%Z = true) as Hneq.
    { apply negb_true_iff, Z.eqb_neq. done. }
    split; [intros post if_match|].
    + unfold serve, update_post, bind.
      destruct (identity_accepted request (mkSession d d []) Hid) as [uid ->].
      simpl. rewrite Hsel, Hneq. simpl. split_and!; [done..|].
      repeat constructor; by intros q [= <-].
    + unfold serve, delete_post, bind.
      destruct (identity_accepted request (mkSession d d []) Hid) as [uid ->].
      simpl. rewrite Hsel. simpl. rewrite Hneq. simpl. split_and!; [done..|].
      repeat constructor; by intros q [= <-].
  - intros c request d. unfold store_of.
    apply (serve_route_keeps (creators_from d)); [..|apply creators_from_refl].
    + apply creators_from_update.
    + apply creators_from_delete.
    + done.
    + done.
Qed.

Lemma creator_guard_witness :
  status (reply_of (serve (delete_post 1 Sample.gateway 8) Sample.store)) = 403%Z
  ∧ store_of (serve (update_post 1 (PostUpdate.mk (Given "X") Unset Unset Unset)
                       Sample.gateway 8 None) Sample.store) = Sample.store.
Proof.
  destruct (proj1 creator_guard Sample.store Sample.gateway 1%Z
              Sample.first_row 8%Z) as [Hu Hd]; [reflexivity..|done|].
  split; [apply Hd|].
  apply (Hu (PostUpdate.mk (Given "X") Unset Unset Unset) None).
Defined.

(** ** Reading one post *)

(** The handler never looks at the request. *)
Lemma get_post_ignores_request post_id r1 r2 if_none_match :
  get_post post_id r1 if_none_match = get_post post_id r2 if_none_match.
Proof. reflexivity. Qed.

(** C5, at a request without the identity header: [GET /posts/1] is
    answered 200 after two queries, where the other routes answer 401
    before any store operation ([guarded_routes_require_identity]). *)
Theorem get_post_skips_identity_check :
  identified Sample.anonymous = false
  ∧ status (reply_of (serve (get_post 1 Sample.anonymous None) Sample.store))
    = 200%Z
  ∧ ops_of (serve (get_post 1 Sample.anonymous None) Sample.store)
    = [Connect; Execute (SelectPost 1); Close;
       Connect; Execute (SelectPostInterests 1); Close]
  ∧ status (reply_of (serve (get_post 1 Sample.blank None) Sample.store))
    = 200%Z.
Proof. by vm_compute. Qed.

Lemma tag_matches_iff header etag :
  etag ≠ "" →
  tag_matches header etag = true ↔ ∃ t, header = Some t ∧ stripped t = etag.
Proof.
  intros Hne. unfold tag_matches, stripped. split.
  - intros [Ht He]%andb_true_iff. destruct header as [t|]; [|done].
    exists t. split; [done|]. by apply String.eqb_eq.
  - intros (t & -> & He). apply andb_true_iff. split.
    + destruct t; [|done]. by destruct Hne.
    + by apply String.eqb_eq.
Qed.

(** What the handlers build for a stored row, in the terms of the
    statements. *)
Lemma enriched_state_fingerprinted d post_id row :
  Post.post_id row = post_id →
  enriched_state d post_id row = fingerprinted d row.
Proof.
  intros <-.
  unfold enriched_state, existing_state, isoformat_created_at, fingerprinted.
  simpl. by destruct (Post.created_at row).
Qed.

Lemma interest_dicts_are_dicts l :
  forallb PostResponse.is_dict (map interest_dict l) = true.
Proof. by induction l. Qed.

(** The response schema lets the body of a post through exactly when the
    post has a creation time. *)
Lemma serialize_post d post_id row :
  Post.post_id row = post_id →
  PostResponse.serialize
    (py_set "links" (PDict (add_links post_id "")) (enriched_state d post_id row))
  = resource d row <$> Post.created_at row.
Proof.
  intros Hid. rewrite (enriched_state_fingerprinted d post_id row Hid).
  subst post_id.
  unfold fingerprinted, resource, shown_interests, PostResponse.serialize.
  pose proof (interest_dicts_are_dicts
                (Sql.select_post_interests (Post.post_id row) d)) as Hi.
  destruct (Post.created_at row) as [t|], (Post.body row), (Post.image_url row);
    simpl in *; by rewrite ?Hi.
Qed.

(** The response of [GET] for a stored post, by the outcome of the test
    of [If-None-Match] and by the creation time of the post. *)
Lemma get_post_run d post_id request if_none_match row :
  Sql.select_post post_id d = Some row →
  let etag := generate_etag (fingerprinted d row) in
  reply_of (serve (get_post post_id request if_none_match) d)
  = if tag_matches if_none_match etag then mkReply 304 [] None
    else match Post.created_at row with
         | Some t => mkReply 200 [("ETag", PyStr.quoted etag)]
                       (Some (PDict (resource d row t)))
         | None => respond (Raise (Uncaught "ResponseValidationError"))
         end.
Proof.
  intros Hsel etag. unfold etag.
  pose proof (select_post_id _ _ _ Hsel) as Hid.
  rewrite <-(enriched_state_fingerprinted d post_id row Hid).
  unfold serve, get_post, bind, get_connection, fetch, close, emit,
    get_post_interests, reply_of.
  cbn [disk txn log]. rewrite Hsel. cbv beta iota. cbn [disk txn log].
  fold (existing_state d post_id row). fold (enriched_state d post_id row).
  destruct (tag_matches _ _); [done|].
  unfold return_post. rewrite (serialize_post d post_id row Hid).
  by destruct (Post.created_at row).
Qed.

(** C3, as stated, fails for a post without a creation time: the header
    is absent and the answer is 500, the response schema requiring
    [created_at]. *)
Lemma undated_post_is_not_served :
  Sql.select_post 4 Sample.undated = Some Sample.undated_row
  ∧ status (reply_of (serve (get_post 4 Sample.gateway None) Sample.undated))
    = 500%Z.
Proof. by vm_compute. Qed.

(** C3, amended: for a stored post, [GET /posts/{id}] answers 304 without
    a body when [If-None-Match], stripped of its quotes, is the
    fingerprint of the post's fields and interests; when the header is
    absent or differs it answers 200 with the post, its interests and its
    four links under the [ETag] of that fingerprint if the post has a
    creation time, and 500 if it has none; for an id with no post it
    answers 404.  The store is never changed. *)
Theorem get_post_conditional d post_id request if_none_match :
  let out := serve (get_post post_id request if_none_match) d in
  (Sql.select_post post_id d = None → status (reply_of out) = 404%Z)
  ∧ (∀ row, Sql.select_post post_id d = Some row →
       let etag := generate_etag (fingerprinted d row) in
       ((∃ t, if_none_match = Some t ∧ stripped t = etag) →
          reply_of out = mkReply 304 [] None)
       ∧ ((if_none_match = None
           ∨ ∃ t, if_none_match = Some t ∧ stripped t ≠ etag) →
          match Post.created_at row with
          | Some created_at =>
              reply_of out
              = mkReply 200 [("ETag", PyStr.quoted etag)]
                  (Some (PDict (resource d row created_at)))
          | None => status (reply_of out) = 500%Z
          end))
  ∧ store_of out = d.
Proof.
  intros out. split_and!.
  - unfold out, serve, get_post, bind, reply_of. simpl. by intros ->.
  - intros row Hsel etag. unfold out.
    rewrite (get_post_run d post_id request if_none_match row Hsel).
    fold etag. destruct (tag_matches if_none_match etag) eqn:E; split.
    + done.
    + intros [->|(t & -> & Hne)]; [done|].
      apply tag_matches_iff in E as (t' & [= <-] & ?);
        [done|apply generate_etag_nonempty].
    + intros Hm. apply tag_matches_iff in Hm;
        [congruence|apply generate_etag_nonempty].
    + intros _. by destruct (Post.created_at row).
  - unfold out, serve, get_post, bind, store_of. simpl.
    destruct (Sql.select_post post_id d) as [row|]; simpl; [|done].
    destruct (tag_matches _ _); [done|].
    unfold return_post. by destruct (PostResponse.serialize _).
Qed.

(** *** The header [GET] sends back is accepted *)









Lemma get_post_conditional_witness :
  reply_of (serve (get_post 1 Sample.anonymous
                     (Some (PyStr.quoted "7a2390265bf9b670defd14045a935385")))
                  Sample.store) = mkReply 304 [] None
  ∧ reply_of (serve (get_post 1 Sample.anonymous None) Sample.store)
    = mkReply 200
        [("ETag",
          PyStr.quoted (generate_etag (fingerprinted Sample.store Sample.first_row)))]
        (Some (PDict (resource Sample.store Sample.first_row Sample.noon)))
  ∧ status (reply_of (serve (get_post 9 Sample.anonymous None) Sample.store))
    = 404%Z.
Proof.
  split_and!.
  - pose proof (get_post_conditional Sample.store 1 Sample.anonymous
      (Some (PyStr.quoted "7a2390265bf9b670defd14045a935385"))) as (_ & H & _).
    apply (H Sample.first_row); [reflexivity|].
    eexists. split; [reflexivity|]. by vm_compute.
  - pose proof (get_post_conditional Sample.store 1 Sample.anonymous None)
      as (_ & H & _).
    apply (H Sample.first_row); [reflexivity|by left].
  - pose proof (get_post_conditional Sample.store 9 Sample.anonymous None)
      as (H & _).
    by apply H.
Defined.

(** ** The log does not steer a handler *)

Lemma uniform_ret {A} (a : A) : uniform (ret a).
Proof. by intros s l. Qed.

Lemma uniform_raise {A} e : uniform (@raise A e).
Proof. by intros s l. Qed.

Lemma uniform_bind {A B} (m : M A) (k : A → M B) :
  uniform m → (∀ a, uniform (k a)) → uniform (bind m k).
Proof.
  intros Hm Hk s l. unfold bind. rewrite Hm.
  destruct (m s) as [[a|e] s']; [|done]. apply Hk.
Qed.

Lemma uniform_fetch {A} q (f : db → A) : uniform (fetch q f).
Proof. intros s l. unfold fetch, emit. simpl. by rewrite app_assoc. Qed.

Lemma uniform_execute q : uniform (execute q).
Proof.
  intros s l. unfold execute, emit. simpl.
  destruct (exec q (txn s)); simpl; by rewrite app_assoc.
Qed.

Lemma uniform_commit : uniform commit.
Proof. intros s l. unfold commit. simpl. by rewrite app_assoc. Qed.

Lemma uniform_close : uniform close.
Proof. intros s l. unfold close, emit. simpl. by rewrite app_assoc. Qed.

Lemma uniform_get_post_interests id : uniform (get_post_interests id).
Proof. intros s l. unfold get_post_interests. simpl. by rewrite app_assoc. Qed.

Lemma uniform_return_post code hs post : uniform (return_post code hs post).
Proof.
  unfold return_post.
  destruct (PostResponse.serialize post); [apply uniform_ret|apply uniform_raise].
Qed.

Lemma uniform_associate_interests p ids : uniform (associate_interests p ids).
Proof.
  induction ids as [|i ids IH]; simpl; [apply uniform_ret|].
  apply uniform_bind; [apply uniform_fetch|]. intros [found|].
  - apply uniform_bind; [apply uniform_execute|done].
  - apply uniform_bind; [apply uniform_close|intros; apply uniform_raise].
Qed.

Lemma uniform_apply_update post_id post : uniform (apply_update post_id post).
Proof.
  unfold apply_update. apply uniform_bind; [|intros _].
  { unfold update_fields. case_match; [|apply uniform_ret].
    apply uniform_bind; [apply uniform_execute|intros; apply uniform_commit]. }
  apply uniform_bind; [|intros _].
  { unfold update_interests. case_match; [|apply uniform_ret].
    apply uniform_bind; [apply uniform_execute|intros _].
    apply uniform_bind;
      [apply uniform_associate_interests|intros; apply uniform_commit]. }
  unfold fetch_updated_post.
  apply uniform_bind; [apply uniform_fetch|intros updated].
  apply uniform_bind; [apply uniform_close|intros _].
  case_match; [|apply uniform_raise].
  apply uniform_bind;
    [apply uniform_get_post_interests|intros; apply uniform_return_post].
Qed.

(** Two runs from the same stores agree on the result and on the stores. *)
Lemma uniform_same_stores {A} (m : M A) d t l1 l2 :
  uniform m →
  (m (mkSession d t l1)).1 = (m (mkSession d t l2)).1
  ∧ disk (m (mkSession d t l1)).2 = disk (m (mkSession d t l2)).2.
Proof.
  intros Hm.
  pose proof (Hm (mkSession d t []) l1) as H1.
  pose proof (Hm (mkSession d t []) l2) as H2.
  simpl in H1, H2. rewrite app_nil_r in H1, H2. rewrite H1, H2.
  by destruct (m (mkSession d t [])) as [r s'].
Qed.

(** ** Updating a post *)

(** Up to the precondition, an identified update by the creator of an
    existing post has only read the row. *)
Lemma update_post_reaches_precondition d request post_id post created_by
    if_match row :
  identified request = true →
  Sql.select_post post_id d = Some row →
  Post.created_by row = created_by →
  update_post post_id post request created_by if_match (mkSession d d [])
  = (check_if_match post_id row if_match;; apply_update post_id post)
      (mkSession d d [Connect; Execute (SelectPost post_id)]).
Proof.
  intros Hid Hsel Hown. unfold update_post.
  unfold bind at 1. destruct (identity_accepted request (mkSession d d []) Hid)
    as [uid ->].
  unfold bind at 1. simpl. unfold bind at 1. simpl. rewrite Hsel.
  assert (negb (Post.created_by row =? created_by)%Z = false) as ->; [|done].
  apply negb_false_iff, Z.eqb_eq. done.
Qed.

(** What the precondition check does, case by case. *)
Lemma check_if_match_run post_id row if_match s :
  let etag := generate_etag (existing_state (disk s) post_id row) in
  check_if_match post_id row if_match s =
    if PyStr.opt_truthy if_match then
      if String.eqb (PyStr.strip PyStr.dquote (default "" if_match)) etag then
        (Return tt,
         mkSession (disk s) (txn s)
           (log s ++ [Connect; Execute (SelectPostInterests post_id); Close]))
      else
        (Raise (HTTPException 412 "Precondition Failed: eTag mismatch"),
         mkSession (disk s) (txn s)
           ((log s ++ [Connect; Execute (SelectPostInterests post_id); Close])
              ++ [Close]))
    else (Return tt, s).
Proof.
  unfold check_if_match. destruct (PyStr.opt_truthy if_match); [|done].
  unfold bind at 1. unfold get_post_interests at 1. cbv beta iota.
  fold (existing_state (disk s) post_id row).
  by destruct (String.eqb _ _).
Qed.

Lemma no_write_log l :
  forallb (λ e, match e with
                | Commit => false
                | Execute q => negb (is_write q)
                | _ => true
                end) l = true →
  Forall no_write l.
Proof.
  intros H. apply Forall_forall. intros e He.
  rewrite forallb_forall in H. specialize (H e (proj1 (list_elem_of_In _ _) He)).
  split.
  - by intros ->.
  - intros q ->. by apply negb_true_iff.
Qed.

Lemma update_post_passes_precondition d request post_id post created_by
    if_match row :
  identified request = true →
  Sql.select_post post_id d = Some row →
  Post.created_by row = created_by →
  precondition_holds d post_id row if_match = true →
  ∃ l, update_post post_id post request created_by if_match (mkSession d d [])
       = apply_update post_id post (mkSession d d l)
       ∧ Forall no_write l.
Proof.
  intros Hid Hsel Hown Hpre.
  rewrite (update_post_reaches_precondition _ _ _ _ _ _ row) by done.
  unfold bind at 1. rewrite check_if_match_run. simpl.
  unfold precondition_holds, stripped in Hpre.
  destruct (PyStr.opt_truthy if_match); simpl in Hpre.
  - rewrite Hpre. eexists. split; [done|]. by apply no_write_log.
  - eexists. split; [done|]. by apply no_write_log.
Qed.

(** C1, as stated, fails for an [If-Match] header with an empty value: the
    header is supplied, stripping its quotes leaves the empty text, which
    is not the fingerprint, and yet the update is carried out. *)
Lemma empty_if_match_is_not_checked :
  let post := PostUpdate.mk (Given "X") Unset Unset Unset in
  let out := serve (update_post 1 post Sample.gateway 7 (Some "")) Sample.store in
  identified Sample.gateway = true
  ∧ Sql.select_post 1 Sample.store = Some Sample.first_row
  ∧ Post.created_by Sample.first_row = 7%Z
  ∧ stripped "" ≠ generate_etag (existing_state Sample.store 1 Sample.first_row)
  ∧ status (reply_of out) = 200%Z
  ∧ Post.title <$> Sql.select_post 1 (store_of out) = Some "X"
  ∧ Post.title <$> Sql.select_post 1 Sample.store = Some "Hello".
Proof. by vm_compute. Qed.

(** C1, amended: for an identified update of an existing post by its
    creator with a non-empty [If-Match]: when the header, stripped of
    its quotes, differs from the fingerprint of the stored row with its
    interests, the answer is 412 and the store is unchanged; when it
    matches, the response and the resulting store are those of the same
    update sent without the header. *)
Theorem if_match_guard d request post_id post created_by row t :
  identified request = true →
  Sql.select_post post_id d = Some row →
  Post.created_by row = created_by →
  t ≠ "" →
  let etag := generate_etag (existing_state d post_id row) in
  let out := serve (update_post post_id post request created_by (Some t)) d in
  let plain := serve (update_post post_id post request created_by None) d in
  (stripped t ≠ etag →
     status (reply_of out) = 412%Z ∧ store_of out = d
     ∧ Forall (λ e, ∀ q, e = Execute q → is_write q = false) (ops_of out))
  ∧ (stripped t = etag →
     reply_of out = reply_of plain ∧ store_of out = store_of plain).
Proof.
  intros Hid Hsel Hown Ht. unfold serve, reply_of, store_of, ops_of.
  rewrite !(update_post_reaches_precondition _ _ _ _ _ _ row) by done.
  unfold bind. rewrite !check_if_match_run. simpl.
  assert (PyStr.truthy t = true) as -> by (by destruct t).
  unfold stripped. split.
  - intros Hne. apply String.eqb_neq in Hne. rewrite Hne. simpl.
    split_and!; [done..|]. repeat constructor; by intros q [= <-].
  - intros He. apply String.eqb_eq in He. rewrite He.
    pose proof (uniform_same_stores (apply_update post_id post) d d
      [Connect; Execute (SelectPost post_id); Connect;
       Execute (SelectPostInterests post_id); Close]
      [Connect; Execute (SelectPost post_id)]
      (uniform_apply_update post_id post)) as [Hr Hd].
    destruct (apply_update post_id post (mkSession d d [_; _; _; _; _]))
      as [r1 s1].
    destruct (apply_update post_id post (mkSession d d [_; _])) as [r2 s2].
    simpl in Hr, Hd. by subst.
Qed.

(** The tag [GET] sends for the sample post is computed over the ISO
    form of the creation time, the precondition of [PUT] over its [str]
    form: sent back as [If-Match] on the unchanged post, it is refused. *)
Example etag_of_get_is_refused_by_put :
  let post := PostUpdate.mk (Given "X") Unset Unset Unset in
  let seen := serve (get_post 1 Sample.gateway None) Sample.store in
  let tag := default "" (snd <$> head (headers (reply_of seen))) in
  tag = PyStr.quoted "7a2390265bf9b670defd14045a935385"
  ∧ status (reply_of (serve (update_post 1 post Sample.gateway 7 (Some tag))
                            Sample.store)) = 412%Z.
Proof. by vm_compute. Qed.

Lemma if_match_guard_witness :
  status (reply_of (serve (update_post 1
                             (PostUpdate.mk (Given "X") Unset Unset Unset)
                             Sample.gateway 7
                             (Some "7a2390265bf9b670defd14045a935385"))
                          Sample.store)) = 412%Z.
Proof.
  apply (if_match_guard Sample.store Sample.gateway 1 _ 7 Sample.first_row
           "7a2390265bf9b670defd14045a935385");
    [reflexivity|reflexivity|reflexivity|done|by vm_compute].
Defined.

(** *** The three stages of an update *)

Lemma select_post_after_fields post_id post d row :
  Sql.select_post post_id d = Some row →
  Sql.select_post post_id (after_fields post_id post d)
  = Some (foldl Sql.set_column row (assignments (PostUpdate.scalar_items post))).
Proof.
  intros Hsel. unfold after_fields.
  destruct (assignments (PostUpdate.scalar_items post)) as [|a l] eqn:E;
    [done|].
  simpl. rewrite select_post_update, Hsel. simpl.
  by rewrite (select_post_id _ _ _ Hsel), Z.eqb_refl.
Qed.

Lemma assignments_given post :
  assignments (PostUpdate.scalar_items post)
  = given "title" (PostUpdate.title post)
    ++ given "body" (PostUpdate.body post)
    ++ given "image_url" (PostUpdate.image_url post).
Proof.
  unfold assignments, PostUpdate.scalar_items.
  by destruct (PostUpdate.title post), (PostUpdate.body post),
    (PostUpdate.image_url post).
Qed.

Lemma set_columns_assigned post r :
  foldl Sql.set_column r (assignments (PostUpdate.scalar_items post))
  = assigned post r.
Proof.
  rewrite assignments_given. unfold assigned, pick.
  by destruct r, (PostUpdate.title post), (PostUpdate.body post),
    (PostUpdate.image_url post).
Qed.

Lemma select_post_others post_id post d id :
  id ≠ post_id →
  Sql.select_post id (after_fields post_id post d) = Sql.select_post id d.
Proof.
  intros Hne. unfold after_fields. case_match; [|done].
  rewrite select_post_update.
  destruct (Sql.select_post id d) as [r|] eqn:E; [|done]. simpl.
  apply select_post_id in E. case_match; [lia|done].
Qed.

Lemma after_fields_tables post_id post d :
  Interests (after_fields post_id post d) = Interests d
  ∧ PostInterests (after_fields post_id post d) = PostInterests d.
Proof. unfold after_fields. by case_match. Qed.

(** The first stage commits the assignments, if there are any. *)
Lemma update_fields_run post_id post d l :
  let columns := assignments (PostUpdate.scalar_items post) in
  update_fields post_id post (mkSession d d l)
  = (Return tt,
     mkSession (after_fields post_id post d) (after_fields post_id post d)
       (l ++ if is_nonempty columns
             then [Execute (UpdatePost columns post_id); Commit] else [])).
Proof.
  unfold update_fields, after_fields.
  destruct (is_nonempty _); simpl.
  - unfold bind, execute, commit. simpl. by rewrite <-app_assoc.
  - by rewrite app_nil_r.
Qed.

(** The loop over the interests leaves the committed store and, in the
    open transaction, the posts and the interests as they are. *)
Lemma associate_interests_frame p ids s r s' :
  associate_interests p ids s = (r, s') →
  disk s' = disk s
  ∧ Posts (txn s') = Posts (txn s)
  ∧ Interests (txn s') = Interests (txn s).
Proof.
  revert s. induction ids as [|i ids IH]; intros s H.
  { by injection H as <- <-. }
  cbn [associate_interests] in H. unfold bind at 1, fetch at 1 in H.
  cbv beta iota in H.
  destruct (Sql.select_interest i (txn s)) as [found|].
  - unfold bind at 1, execute at 1 in H. cbn [txn emit disk log exec] in H.
    destruct (Sql.has_pair p i (txn s)).
    + by injection H as <- <-.
    + by apply IH in H.
  - by injection H as <- <-.
Qed.

(** The second stage changes no post and no interest, whether it ends in
    a commit or in an exception. *)
Lemma update_interests_frame post_id post d l r s' :
  update_interests post_id post (mkSession d d l) = (r, s') →
  Posts (disk s') = Posts d ∧ Interests (disk s') = Interests d.
Proof.
  unfold update_interests. intros H.
  destruct (PostUpdate.pop_interest_ids post) as [ids|];
    [|by injection H as <- <-].
  unfold bind at 1, execute at 1 in H. cbn [exec txn disk log] in H.
  unfold bind at 1 in H.
  destruct (associate_interests post_id ids _) as [[[]|e] s1] eqn:E;
    apply associate_interests_frame in E as (Hd & Hp & Hi); simpl in *;
    injection H as <- <-; simpl; by rewrite ?Hp, ?Hi, ?Hd.
Qed.

Lemma update_interests_skipped post_id post s :
  PostUpdate.pop_interest_ids post = None →
  update_interests post_id post s = (Return tt, s).
Proof. unfold update_interests. by intros ->. Qed.

Lemma updated_post_etag d post_id row t :
  Post.post_id row = post_id →
  Post.created_at row = Some t →
  generate_etag
    (py_set "links" (PDict (add_links post_id "")) (enriched_state d post_id row))
  = generate_etag (resource d row t).
Proof.
  intros Hid Ht. rewrite (enriched_state_fingerprinted d post_id row Hid).
  subst post_id. unfold fingerprinted, resource. rewrite Ht.
  apply generate_etag_permutation.
  - by apply (bool_decide_unpack
      (NoDup ["post_id"; "title"; "body"; "image_url"; "created_by";
              "created_at"; "interests"; "links"])).
  - cbn [py_set String.eqb Ascii.eqb Bool.eqb].
    match goal with |- ?p :: ?l ≡ₚ _ =>
      apply (Permutation_cons_app (take 3 l) (drop 3 l) p) end.
    done.
Qed.

Lemma links_then_isoformat post_id interests row :
  isoformat_created_at
    (py_set "links" (PDict (add_links post_id ""))
       (py_set "interests" interests (Post.as_dict row)))
  = py_set "links" (PDict (add_links post_id ""))
      (isoformat_created_at
         (py_set "interests" interests (Post.as_dict row))).
Proof. unfold isoformat_created_at. simpl. by destruct (Post.created_at row). Qed.

(** The third stage reads the row back and answers with the resource,
    under the fingerprint of the body it sends, when the row has a
    creation time; the response schema refuses the row otherwise. *)
Lemma fetch_updated_post_run post_id s row :
  Sql.select_post post_id (txn s) = Some row →
  fetch_updated_post post_id s
  = (match Post.created_at row with
     | Some t =>
         Return (mkReply 200
                   [("ETag", PyStr.quoted (generate_etag (resource (disk s) row t)))]
                   (Some (PDict (resource (disk s) row t))))
     | None => Raise (Uncaught "ResponseValidationError")
     end,
     mkSession (disk s) (txn s)
       (log s ++ [Execute (SelectPost post_id); Close; Connect;
                  Execute (SelectPostInterests post_id); Close])).
Proof.
  intros Hsel. pose proof (select_post_id _ _ _ Hsel) as Hid.
  unfold fetch_updated_post, bind, fetch, close, emit, get_post_interests.
  cbn [disk txn log]. rewrite Hsel. cbv beta iota. cbn [disk txn log].
  rewrite links_then_isoformat.
  fold (existing_state (disk s) post_id row).
  fold (enriched_state (disk s) post_id row).
  unfold return_post. rewrite (serialize_post (disk s) post_id row Hid).
  destruct (Post.created_at row) as [t|] eqn:Ht; simpl.
  - rewrite (updated_post_etag (disk s) post_id row t Hid Ht).
    by rewrite <-!app_assoc.
  - by rewrite <-!app_assoc.
Qed.

Lemma fetch_updated_post_disk post_id s :
  disk (fetch_updated_post post_id s).2 = disk s.
Proof.
  unfold fetch_updated_post, bind, fetch, close, emit, get_post_interests.
  cbn [disk txn log]. destruct (Sql.select_post post_id (txn s)); [|done].
  cbv beta iota. unfold return_post.
  by destruct (PostResponse.serialize _).
Qed.

Lemma select_post_same_posts id d d' :
  Posts d = Posts d' → Sql.select_post id d = Sql.select_post id d'.
Proof. unfold Sql.select_post. by intros ->. Qed.

Lemma writes_app l1 l2 : writes (l1 ++ l2) = writes l1 ++ writes l2.
Proof. apply filter_app. Qed.

Lemma writes_none l : Forall no_write l → writes l = [].
Proof.
  unfold writes. induction 1 as [|e l [Hc Hq] _ IH]; [done|].
  rewrite filter_cons, IH. case_decide as Hw; [|done].
  destruct e as [|q| |]; try done. simpl in Hw.
  by rewrite (Hq q eq_refl) in Hw.
Qed.

(** *** Sparse payloads *)

Lemma apply_update_frame post_id post d l r s' :
  apply_update post_id post (mkSession d d l) = (r, s') →
  Posts (disk s') = Posts (after_fields post_id post d)
  ∧ Interests (disk s') = Interests d.
Proof.
  unfold apply_update. intros H.
  unfold bind at 1 in H. rewrite update_fields_run in H.
  destruct (after_fields_tables post_id post d) as [HI _].
  unfold bind at 1 in H.
  destruct (update_interests post_id post _) as [[[]|e] s2] eqn:E;
    apply update_interests_frame in E as (Hp & Hi).
  - pose proof (fetch_updated_post_disk post_id s2) as Hd.
    rewrite H in Hd. simpl in Hd. rewrite Hd. split; [done|congruence].
  - injection H as <- <-. split; [done|congruence].
Qed.

(** An accepted update, seen from the store: the committed store after
    the request has the row with the given fields assigned, whatever the
    interests stage does afterwards. *)
Lemma update_post_store d request post_id post created_by if_match row :
  identified request = true →
  Sql.select_post post_id d = Some row →
  Post.created_by row = created_by →
  precondition_holds d post_id row if_match = true →
  let out := serve (update_post post_id post request created_by if_match) d in
  Posts (store_of out) = Posts (after_fields post_id post d)
  ∧ Interests (store_of out) = Interests d.
Proof.
  intros Hid Hsel Hown Hpre out. unfold out, serve, store_of.
  destruct (update_post_passes_precondition d request post_id post created_by
              if_match row Hid Hsel Hown Hpre) as (l & -> & _).
  destruct (apply_update post_id post (mkSession d d l)) as [r s'] eqn:E.
  by apply apply_update_frame in E.
Qed.

(** An accepted update without an interest list, in full. *)
Lemma fields_only_update d request post_id post created_by if_match row :
  identified request = true →
  Sql.select_post post_id d = Some row →
  Post.created_by row = created_by →
  precondition_holds d post_id row if_match = true →
  PostUpdate.pop_interest_ids post = None →
  let out := serve (update_post post_id post request created_by if_match) d in
  let columns := assignments (PostUpdate.scalar_items post) in
  let d1 := after_fields post_id post d in
  store_of out = d1
  ∧ writes (ops_of out)
    = (if is_nonempty columns
       then [Execute (UpdatePost columns post_id); Commit] else [])
  ∧ reply_of out
    = respond (match Post.created_at row with
               | Some t =>
                   Return (mkReply 200
                     [("ETag", PyStr.quoted
                                 (generate_etag (resource d1 (assigned post row) t)))]
                     (Some (PDict (resource d1 (assigned post row) t))))
               | None => Raise (Uncaught "ResponseValidationError")
               end).
Proof.
  intros Hid Hsel Hown Hpre Hids out columns d1.
  unfold out, serve, store_of, ops_of, reply_of.
  destruct (update_post_passes_precondition d request post_id post created_by
              if_match row Hid Hsel Hown Hpre) as (l & -> & Hl).
  pose proof (select_post_after_fields post_id post d row Hsel) as Hnew.
  rewrite set_columns_assigned in Hnew. fold d1 in Hnew.
  assert (∃ r s', apply_update post_id post (mkSession d d l) = (r, s')
            ∧ r = match Post.created_at row with
                  | Some t =>
                      Return (mkReply 200
                        [("ETag", PyStr.quoted
                           (generate_etag (resource d1 (assigned post row) t)))]
                        (Some (PDict (resource d1 (assigned post row) t))))
                  | None => Raise (Uncaught "ResponseValidationError")
                  end
            ∧ disk s' = d1
            ∧ writes (log s')
              = if is_nonempty columns
                then [Execute (UpdatePost columns post_id); Commit] else [])
    as (r & s' & -> & -> & Hs & Hw).
  { unfold apply_update. unfold bind at 1. rewrite update_fields_run.
    fold columns d1. unfold bind at 1.
    rewrite (update_interests_skipped post_id post _ Hids).
    rewrite (fetch_updated_post_run post_id _ (assigned post row))
      by exact Hnew.
    cbn [disk txn log]. do 2 eexists. split_and!; [done..|].
    cbn [log]. rewrite !writes_app, (writes_none l Hl).
    rewrite (writes_none [_; _; _; _; _]) by (by apply no_write_log).
    rewrite app_nil_r. simpl. by destruct (is_nonempty columns). }
  simpl. by destruct (Post.created_at row).
Qed.

(** C7, as stated, fails for a post without a creation time: the update
    with no scalar field and no interest list writes nothing, and is
    answered 500, the response schema requiring [created_at]. *)
Lemma empty_update_of_undated_post_fails :
  let post := PostUpdate.mk Unset Unset Unset Unset in
  let out := serve (update_post 4 post Sample.gateway 7 None) Sample.undated in
  identified Sample.gateway = true
  ∧ Sql.select_post 4 Sample.undated = Some Sample.undated_row
  ∧ Post.created_by Sample.undated_row = 7%Z
  ∧ store_of out = Sample.undated
  ∧ status (reply_of out) = 500%Z.
Proof. by vm_compute. Qed.

(** C7, amended: an accepted update leaves in the store the row with
    exactly the fields sent with a value assigned, every other column,
    every other post and the interests as they were, whatever its list of
    interests; without such a list the associations stay as well, the
    only writes are the one [UPDATE] of the columns sent with a value and
    its commit, none when there is no such column, and the answer is 200
    with the resource as stored when the post has a creation time, 500
    when it has none; with no column and no list the store is unchanged
    and the answer is the one [GET] gives for the post. *)
Theorem partial_update d request post_id post created_by if_match row :
  identified request = true →
  Sql.select_post post_id d = Some row →
  Post.created_by row = created_by →
  precondition_holds d post_id row if_match = true →
  let out := serve (update_post post_id post request created_by if_match) d in
  let columns :=
    given "title" (PostUpdate.title post)
    ++ given "body" (PostUpdate.body post)
    ++ given "image_url" (PostUpdate.image_url post) in
  (Sql.select_post post_id (store_of out) = Some (assigned post row)
   ∧ (∀ id, id ≠ post_id →
        Sql.select_post id (store_of out) = Sql.select_post id d)
   ∧ Interests (store_of out) = Interests d)
  ∧ ((∀ ids, PostUpdate.interest_ids post ≠ Given ids) →
     PostInterests (store_of out) = PostInterests d
     ∧ writes (ops_of out)
       = (if is_nonempty columns
          then [Execute (UpdatePost columns post_id); Commit] else [])
     ∧ match Post.created_at row with
       | Some t =>
           status (reply_of out) = 200%Z
           ∧ content (reply_of out)
             = Some (PDict (resource (store_of out) (assigned post row) t))
       | None => status (reply_of out) = 500%Z
       end)
  ∧ (columns = [] → (∀ ids, PostUpdate.interest_ids post ≠ Given ids) →
     store_of out = d
     ∧ Forall no_write (ops_of out)
     ∧ status (reply_of out)
       = status (reply_of (serve (get_post post_id request None) d))
     ∧ content (reply_of out)
       = content (reply_of (serve (get_post post_id request None) d))).
Proof.
  intros Hid Hsel Hown Hpre out columns.
  assert (columns = assignments (PostUpdate.scalar_items post)) as Hcols
    by (by rewrite assignments_given).
  assert ((∀ ids, PostUpdate.interest_ids post ≠ Given ids) →
          PostUpdate.pop_interest_ids post = None) as Hnolist.
  { intros H. unfold PostUpdate.pop_interest_ids.
    destruct (PostUpdate.interest_ids post) as [| |ids]; [done..|].
    by destruct (H ids). }
  destruct (update_post_store d request post_id post created_by if_match row
              Hid Hsel Hown Hpre) as [Hposts Hint].
  fold out in Hposts, Hint.
  split_and!.
  - rewrite (select_post_same_posts _ _ _ Hposts).
    rewrite (select_post_after_fields _ _ _ _ Hsel).
    by rewrite set_columns_assigned.
  - intros id Hne. rewrite (select_post_same_posts _ _ _ Hposts).
    by apply select_post_others.
  - done.
  - intros Hids%Hnolist.
    destruct (fields_only_update d request post_id post created_by if_match row
                Hid Hsel Hown Hpre Hids) as (Hs & Hw & Hr).
    fold out in Hs, Hw, Hr. rewrite <-Hcols in Hw. split_and!.
    + rewrite Hs. apply after_fields_tables.
    + done.
    + rewrite Hr, Hs. by destruct (Post.created_at row).
  - intros Hnone Hids%Hnolist.
    destruct (fields_only_update d request post_id post created_by if_match row
                Hid Hsel Hown Hpre Hids) as (Hs & Hw & Hr).
    fold out in Hs, Hw, Hr. rewrite <-Hcols, Hnone in Hw.
    assert (after_fields post_id post d = d) as Hd.
    { unfold after_fields. by rewrite <-Hcols, Hnone. }
    assert (assigned post row = row) as Hrow.
    { rewrite <-set_columns_assigned. by rewrite <-Hcols, Hnone. }
    rewrite Hd in Hs, Hr. rewrite Hrow in Hr.
    rewrite (get_post_run d post_id request None row Hsel).
    change (tag_matches None _) with false. cbv iota.
    split_and!; [done| |rewrite Hr; by destruct (Post.created_at row)..].
    apply Forall_forall. intros e He.
    assert (e ∉ writes (ops_of out)) as Hnw by (rewrite Hw; apply not_elem_of_nil).
    unfold writes in Hnw. rewrite list_elem_of_filter in Hnw.
    destruct e as [|q| |]; split; try done.
    + intros q' [= <-]. destruct (is_write q) eqn:E; [|done].
      destruct Hnw. split; [|done]. simpl. by rewrite E.
    + intros _. apply Hnw. by split.
Qed.

Lemma partial_update_witness :
  Sql.select_post 1
    (store_of (serve (update_post 1 (PostUpdate.mk (Given "X") Unset Null Unset)
                        Sample.gateway 7 None) Sample.store))
  = Some (Post.mk 1 "X" (Some "World") None 7 (Some Sample.noon))
  ∧ PostInterests
      (store_of (serve (update_post 1 (PostUpdate.mk (Given "X") Unset Null Unset)
                          Sample.gateway 7 None) Sample.store))
    = PostInterests Sample.store
  ∧ store_of (serve (update_post 1 (PostUpdate.mk Null Unset Unset Null)
                       Sample.gateway 7 None) Sample.store)
    = Sample.store.
Proof.
  split_and!.
  - pose proof (partial_update Sample.store Sample.gateway 1
                  (PostUpdate.mk (Given "X") Unset Null Unset) 7 None
                  Sample.first_row) as [(H & _) _];
      [reflexivity..|].
    exact H.
  - pose proof (partial_update Sample.store Sample.gateway 1
                  (PostUpdate.mk (Given "X") Unset Null Unset) 7 None
                  Sample.first_row) as (_ & H & _);
      [reflexivity..|].
    by apply H.
  - pose proof (partial_update Sample.store Sample.gateway 1
                  (PostUpdate.mk Null Unset Unset Null) 7 None
                  Sample.first_row) as (_ & _ & H);
      [reflexivity..|].
    by apply H.
Defined.

(** *** Interest lists naming a missing interest *)

Lemma has_pair_insert p i j d :
  Sql.has_pair p j (Sql.insert_post_interest p i d)
  = Sql.has_pair p j d || bool_decide (i = j).
Proof.
  unfold Sql.has_pair, Sql.insert_post_interest. simpl.
  rewrite existsb_app. simpl. rewrite Z.eqb_refl, orb_false_r. simpl.
  f_equal. case_bool_decide; lia.
Qed.

Lemma has_pair_unlinked p i d :
  Sql.has_pair p i (Sql.delete_post_interests p d) = false.
Proof.
  unfold Sql.has_pair, Sql.delete_post_interests. simpl.
  induction (PostInterests d) as [|pi l IH]; [done|].
  rewrite filter_cons. case_decide; simpl; [|done].
  rewrite IH, orb_false_r. apply andb_false_iff. left. lia.
Qed.

(** The loop stops at the first missing interest, after inserting the
    ids before it in the open transaction only. *)
Lemma associate_missing p pre x rest s :
  Forall (λ i, is_Some (Sql.select_interest i (txn s))) pre →
  Forall (λ i, Sql.has_pair p i (txn s) = false) pre →
  NoDup pre →
  Sql.select_interest x (txn s) = None →
  ∃ s', associate_interests p (pre ++ x :: rest) s
        = (Raise (HTTPException 400
                    ("Interest " +:+ pretty x +:+ " not found")), s')
        ∧ disk s' = disk s.
Proof.
  revert s. induction pre as [|i pre IH]; intros s Hex Hfree Hnd Hx; simpl.
  - unfold bind, fetch. simpl. rewrite Hx. simpl. by eexists.
  - apply Forall_cons in Hex as [[found Hi] Hex].
    apply Forall_cons in Hfree as [Hfi Hfree].
    apply NoDup_cons in Hnd as [Hni Hnd].
    unfold bind at 1. unfold fetch at 1. simpl. rewrite Hi.
    unfold bind at 1. unfold execute at 1. simpl. rewrite Hfi.
    destruct (IH (mkSession (disk s)
                    (Sql.insert_post_interest p i (txn s))
                    ((log s ++ [Execute (SelectInterest i)])
                       ++ [Execute (InsertPostInterest p i)])))
      as (s' & Hrun & Hdisk); simpl; try done.
    + apply Forall_forall. intros j Hj. rewrite has_pair_insert.
      rewrite Forall_forall in Hfree. rewrite (Hfree j Hj). simpl.
      case_bool_decide; [by subst|done].
    + exists s'. split; [|done]. exact Hrun.
Qed.

(** C4, as stated, fails on an update: the title sent together with an
    unknown interest id is committed before the interests are looked at,
    and stays after the 400. *)
Lemma fields_persist_after_invalid_interest :
  let post := PostUpdate.mk (Given "X") Unset Unset (Given [99%Z]) in
  let out := serve (update_post 1 post Sample.gateway 7 None) Sample.store in
  Sql.select_interest 99 Sample.store = None
  ∧ reply_of out
    = respond (Raise (HTTPException 400 "Interest 99 not found"))
  ∧ Post.title <$> Sql.select_post 1 Sample.store = Some "Hello"
  ∧ Post.title <$> Sql.select_post 1 (store_of out) = Some "X".
Proof. by vm_compute. Qed.

(** C4, amended: an accepted update whose interest list has a first id
    with no row in [Interests], and no repeated id before it, is answered
    400 naming that id; the association table is left as it was (nothing
    of the batch persists and the earlier associations are kept), while
    the field assignments of the same request persist, having been
    committed before the interests were examined. *)
Theorem invalid_interest_on_update d request post_id post created_by if_match
    row pre x rest :
  identified request = true →
  Sql.select_post post_id d = Some row →
  Post.created_by row = created_by →
  precondition_holds d post_id row if_match = true →
  PostUpdate.interest_ids post = Given (pre ++ x :: rest) →
  Forall (λ i, is_Some (Sql.select_interest i d)) pre →
  NoDup pre →
  Sql.select_interest x d = None →
  let out := serve (update_post post_id post request created_by if_match) d in
  reply_of out
  = respond (Raise (HTTPException 400
                      ("Interest " +:+ pretty x +:+ " not found")))
  ∧ PostInterests (store_of out) = PostInterests d
  ∧ Interests (store_of out) = Interests d
  ∧ store_of out = after_fields post_id post d
  ∧ Sql.select_post post_id (store_of out)
    = Some (foldl Sql.set_column row
              (assignments (PostUpdate.scalar_items post))).
Proof.
  intros Hid Hsel Hown Hpre Hids Hex Hnd Hx out.
  assert (reply_of out
          = respond (Raise (HTTPException 400
                              ("Interest " +:+ pretty x +:+ " not found")))
          ∧ store_of out = after_fields post_id post d) as [Hr Hs].
  { unfold out, serve, reply_of, store_of.
    destruct (update_post_passes_precondition d request post_id post created_by
                if_match row Hid Hsel Hown Hpre) as (l & -> & _).
    unfold apply_update, update_interests, PostUpdate.pop_interest_ids.
    rewrite Hids.
    rewrite (bind_return _ _ _ _ _ (update_fields_run post_id post d l)).
    set (d1 := after_fields post_id post d). set (l1 := l ++ _).
    assert (Interests d1 = Interests d) as HI.
    { unfold d1, after_fields. by case_match. }
    destruct (associate_missing post_id pre x rest
                (mkSession d1 (Sql.delete_post_interests post_id d1)
                           (l1 ++ [Execute (DeletePostInterests post_id)])))
      as (s' & Hrun & Hdisk); simpl; try done.
    { eapply Forall_impl; [exact Hex|]. intros i.
      unfold Sql.select_interest. simpl. by rewrite HI. }
    { apply Forall_forall. intros i _. apply has_pair_unlinked. }
    { unfold Sql.select_interest in *. simpl. by rewrite HI. }
    assert ((execute (DeletePostInterests post_id);;
             associate_interests post_id (pre ++ x :: rest);; commit)
              (mkSession d1 d1 l1)
            = (Raise (HTTPException 400
                        ("Interest " +:+ pretty x +:+ " not found")), s'))
      as Hstage.
    { erewrite bind_return; [|reflexivity]. by erewrite bind_raise. }
    rewrite (bind_raise _ _ _ _ _ Hstage). simpl. by rewrite Hdisk. }
  split_and!; try done.
  - rewrite Hs. unfold after_fields. by case_match.
  - rewrite Hs. unfold after_fields. by case_match.
  - rewrite Hs. by apply select_post_after_fields.
Qed.

Lemma invalid_interest_on_update_witness :
  store_of (serve (update_post 1
                     (PostUpdate.mk (Given "X") Unset Unset (Given [1; 2; 99]%Z))
                     Sample.gateway 7 None) Sample.store)
  = after_fields 1 (PostUpdate.mk (Given "X") Unset Unset (Given [1; 2; 99]%Z))
      Sample.store.
Proof.
  apply (invalid_interest_on_update Sample.store Sample.gateway 1 _ 7 None
           Sample.first_row [1; 2]%Z 99%Z []);
    try reflexivity.
  - repeat constructor; by eexists.
  - by apply (bool_decide_unpack (NoDup [1; 2]%Z)).
Defined.

(** *** Creating a post *)

(** The handler reads [post.created_by] before it writes anything, and
    the schema has no such field: every identified create ends in an
    uncaught [AttributeError], that is a 500, with the store untouched. *)
Lemma create_post_attribute_error post request d :
  identified request = true →
  serve (create_post post request) d
  = (respond (Raise (Uncaught "AttributeError")), d, [Connect]).
Proof.
  intros Hid. unfold serve, create_post, bind.
  by destruct (identity_accepted request (mkSession d d []) Hid) as [uid ->].
Qed.

(** From the [INSERT] on, the post row is committed before the interests
    are looked at, and stays when one of them is missing. *)
Example create_post_as_keeps_the_row :
  let out := serve (create_post_as 7 (PostCreate.mk "New" None None (Some [99%Z])))
                   Sample.store in
  status (reply_of out) = 400%Z
  ∧ Post.title <$> Sql.select_post 3 (store_of out) = Some "New"
  ∧ PostInterests (store_of out) = PostInterests Sample.store.
Proof. by vm_compute. Qed.

(** ** Listing *)

Lemma enrich_item_run row s :
  ∃ l, enrich_item row s
       = (Return (item_of (disk s) row),
          mkSession (disk s) (txn s) (log s ++ l)).
Proof.
  unfold enrich_item, item_of, bind.
  destruct (negb (Post.post_id row =? 0)%Z); simpl.
  - by eexists.
  - exists []. rewrite app_nil_r. by destruct s.
Qed.

Lemma mapM_enrich_run rows s :
  ∃ l, mapM enrich_item rows s
       = (Return (map (item_of (disk s)) rows),
          mkSession (disk s) (txn s) (log s ++ l)).
Proof.
  revert s. induction rows as [|row rows IH]; intros s; simpl.
  - exists []. rewrite app_nil_r. by destruct s.
  - destruct (enrich_item_run row s) as [l1 H1].
    rewrite (bind_return _ _ _ _ _ H1).
    destruct (IH (mkSession (disk s) (txn s) (log s ++ l1))) as [l2 H2].
    rewrite (bind_return _ _ _ _ _ H2). simpl.
    exists (l1 ++ l2). by rewrite app_assoc.
Qed.

(** An identified listing within the bounds of its parameters. *)
Lemma get_posts_run d request skip limit i u q :
  identified request = true →
  (0 ≤ skip)%Z → (1 ≤ limit)%Z → (limit ≤ 100)%Z →
  let w := where_clauses i u q in
  let total := Sql.count_posts w d in
  let posts := map (item_of d) (Sql.select_page w limit skip d) in
  let out := serve (get_posts request skip limit i u q) d in
  ∃ body,
    listing posts total skip limit = Some body
    ∧ reply_of out
      = mkReply 200
          [("ETag", PyStr.quoted
                      (generate_etag [("posts", PList posts); ("total", PInt total);
                                      ("skip", PInt skip); ("limit", PInt limit)]))]
          (Some (PDict body))
    ∧ store_of out = d.
Proof.
  intros Hid Hs Hl Hu w total posts.
  destruct (listing_pagination posts total skip limit Hl)
    as (body & links & Hbody & _).
  exists body. split; [done|].
  unfold serve, get_posts, reply_of, store_of.
  rewrite (bind_return _ _ _ _ _ (check_query_accepts skip limit _ Hs Hl Hu)).
  destruct (identity_accepted request (mkSession d d []) Hid) as [uid Hu'].
  rewrite (bind_return _ _ _ _ _ Hu').
  erewrite bind_return; [|reflexivity].
  erewrite bind_return; [|reflexivity].
  erewrite bind_return; [|reflexivity].
  erewrite bind_return; [|reflexivity].
  destruct (mapM_enrich_run (Sql.select_page w limit skip d)
              (mkSession d d [Connect; Execute (CountPosts w);
                              Execute (SelectPage w limit skip); Close]))
    as [l Hrun].
  unfold emit. cbn [disk txn log app]. fold w.
  rewrite (bind_return _ _ _ _ _ Hrun). cbn [disk].
  fold posts total. by rewrite Hbody.
Qed.

Lemma listing_paginated posts total skip limit :
  (1 ≤ limit)%Z →
  ∃ page, listing posts total skip limit = Some page
          ∧ paginated total skip limit page.
Proof.
  intros Hl.
  destruct (listing_pagination posts total skip limit Hl)
    as (page & links & H1 & _ & H2 & H3 & H4 & H5 & H6 & H7 & _).
  exists page. split; [done|]. by exists links.
Qed.

(** C8, as stated, fails for a limit above 100: with 150 posts, [skip=0]
    and [limit=101] there is a next page, and the answer is 422 with
    neither [has_more] nor links, the route taking no limit above 100. *)
Lemma limit_above_100_is_refused :
  let out := serve (get_posts Sample.gateway 0 101 None None None) Sample.crowd in
  identified Sample.gateway = true
  ∧ Sql.count_posts (where_clauses None None None) Sample.crowd = 150%Z
  ∧ status (reply_of out) = 422%Z
  ∧ ∃ page, content (reply_of out) = Some (PDict page)
            ∧ py_get "has_more" page = None
            ∧ py_get "links" page = None.
Proof. split_and!; [by vm_compute..|]. eexists. by vm_compute. Qed.

(** C8, amended: an identified listing with [skip ≥ 0] and [limit] from 1
    to 100, the bounds of the route, answers 200 with the pagination
    record of the count of the matching rows; and for every count, every
    offset and every [limit ≥ 1] the record the handler builds has
    [has_more] set exactly when [skip + limit < total], [next] present
    exactly then and pointing to [skip + limit], [prev] present exactly
    when [skip > 0] and pointing to [max 0 (skip - limit)], and [last]
    pointing to [max 0 ((total - 1) / limit * limit)], which for a
    positive count is the multiple of [limit] whose page holds the last
    row. *)
Theorem get_posts_pagination d request skip limit i u q posts total :
  (identified request = true →
   (0 ≤ skip)%Z → (1 ≤ limit)%Z → (limit ≤ 100)%Z →
   let out := serve (get_posts request skip limit i u q) d in
   ∃ page,
     status (reply_of out) = 200%Z
     ∧ content (reply_of out) = Some (PDict page)
     ∧ paginated (Sql.count_posts (where_clauses i u q) d) skip limit page)
  ∧ ((1 ≤ limit)%Z →
     ∃ page, listing posts total skip limit = Some page
             ∧ paginated total skip limit page)
  ∧ ((1 ≤ limit)%Z →
     let last := Z.max 0 ((total - 1) / limit * limit) in
     (0 ≤ last)%Z
     ∧ ((0 < total)%Z →
        (last mod limit = 0 ∧ last < total ∧ total ≤ last + limit)%Z)).
Proof.
  split_and!.
  - intros Hid Hs Hl Hu out.
    destruct (get_posts_run d request skip limit i u q Hid Hs Hl Hu)
      as (page & Hpage & Hrep & _).
    destruct (listing_paginated
                (map (item_of d)
                     (Sql.select_page (where_clauses i u q) limit skip d))
                (Sql.count_posts (where_clauses i u q) d) skip limit Hl)
      as (page' & Hpage' & Hpag).
    rewrite Hpage in Hpage'. injection Hpage' as <-.
    exists page. unfold out. rewrite Hrep. by split_and!.
  - apply listing_paginated.
  - intros Hl last.
    by destruct (listing_pagination posts total skip limit Hl)
      as (page & links & _ & _ & _ & _ & _ & _ & _ & _ & H).
Qed.

Lemma get_posts_pagination_witness :
  (∃ page links,
     listing [] 25 20 10 = Some page
     ∧ py_get "has_more" page = Some (PBool false)
     ∧ py_get "links" page = Some (PDict links)
     ∧ py_get "next" links = Some PNone
     ∧ py_get "prev" links = Some (page_link 10 10))
  ∧ ∃ page,
      status (reply_of (serve (get_posts Sample.gateway 20 10 None None None)
                              Sample.store)) = 200%Z
      ∧ content (reply_of (serve (get_posts Sample.gateway 20 10 None None None)
                                 Sample.store)) = Some (PDict page)
      ∧ py_get "has_more" page = Some (PBool false).
Proof.
  destruct (get_posts_pagination Sample.store Sample.gateway 20 10 None
              None None [] 25) as (Hroute & H & _).
  split.
  - destruct (H ltac:(lia))
      as (page & Hpage & links & _ & H2 & H3 & H4 & H5 & _).
    exists page, links. by split_and!.
  - destruct (Hroute eq_refl ltac:(lia) ltac:(lia) ltac:(lia))
      as (page & H1 & H2 & links & _ & H3 & _).
    exists page. by split_and!.
Defined.

(** *** Filters *)

Lemma like_star_unfold p t :
  Sql.like (String "%" p) t
  = Sql.like p t
    || match t with "" => false | String _ t' => Sql.like (String "%" p) t' end.
Proof. by destruct t. Qed.

Lemma like_star p t :
  Sql.like (String "%" p) t = true
  ↔ ∃ pre rest, t = pre +:+ rest ∧ Sql.like p rest = true.
Proof.
  induction t as [|a t IH]; rewrite like_star_unfold.
  - rewrite orb_false_r. split.
    + intros H. by exists "", "".
    + intros (pre & rest & E & H). by destruct pre, rest.
  - rewrite orb_true_iff, IH. split.
    + intros [H|(pre & rest & -> & H)].
      * by exists "", (String a t).
      * by exists (String a pre), rest.
    + intros (pre & rest & E & H). destruct pre as [|b pre].
      * left. change ("" +:+ rest) with rest in E. by subst.
      * right. rewrite app_cons in E. injection E as -> ->. by exists pre, rest.
Qed.

Lemma like_plain_char c p t :
  negb (Ascii.eqb c "%") && negb (Ascii.eqb c "_")
  && negb (Ascii.eqb c PyStr.backslash) = true →
  Sql.like (String c p) t
  = match t with
    | "" => false
    | String d t' => Sql.ci_eqb c d && Sql.like p t'
    end.
Proof.
  intros [[H1 H2]%andb_true_iff H3]%andb_true_iff.
  apply negb_true_iff in H1, H2, H3. simpl. by rewrite H1, H2, H3.
Qed.

Lemma like_plain_prefix s p t :
  plain s = true →
  Sql.like (s +:+ p) t = true
  ↔ ∃ mid rest,
      t = mid +:+ rest ∧ PyStr.lower mid = PyStr.lower s
      ∧ Sql.like p rest = true.
Proof.
  revert t. induction s as [|c s IH]; intros t Hs.
  - change ("" +:+ p) with p. split.
    + intros H. by exists "", t.
    + intros (mid & rest & -> & Hm & H). by destruct mid.
  - simpl in Hs. apply andb_true_iff in Hs as [Hc Hs].
    rewrite app_cons, (like_plain_char _ _ _ Hc). split.
    + destruct t as [|d t]; [done|].
      intros [Hcd H]%andb_true_iff. apply (IH _ Hs) in H as (mid & rest & -> & Hm & H).
      exists (String d mid), rest. split_and!; [done| |done].
      simpl. apply Ascii.eqb_eq in Hcd. by rewrite Hm, Hcd.
    + intros (mid & rest & -> & Hm & H). destruct mid as [|d mid]; [done|].
      simpl in Hm. injection Hm as Hd Hm. rewrite app_cons.
      apply andb_true_iff. split.
      * apply Ascii.eqb_eq. done.
      * apply (IH _ Hs). by exists mid, rest.
Qed.

Lemma like_substring s t :
  plain s = true →
  Sql.like ("%" +:+ s +:+ "%") t = true ↔ contains_ci s t.
Proof.
  intros Hs. change ("%" +:+ s +:+ "%") with (String "%" (s +:+ "%")).
  rewrite like_star. unfold contains_ci. split.
  - intros (pre & rest & -> & H).
    apply (like_plain_prefix _ _ _ Hs) in H as (mid & post & -> & Hm & _).
    by exists pre, mid, post.
  - intros (pre & mid & post & -> & Hm). exists pre, (mid +:+ post).
    split; [done|]. apply (like_plain_prefix _ _ _ Hs).
    exists mid, post. split_and!; [done..|].
    apply like_star. exists post, "". by rewrite app_empty_r.
Qed.

(** The server's arrangement of the rows holds each row once, and every
    order of the rows is one of its arrangements. *)
Lemma put_Permutation {A} n (x : A) l : Sql.put n x l ≡ₚ x :: l.
Proof.
  unfold Sql.put. rewrite <-Permutation_middle. by rewrite take_drop.
Qed.

Lemma arrange_Permutation {A} code (rows : list A) :
  Sql.arrange code rows ≡ₚ rows.
Proof.
  revert code. induction rows as [|x rows IH]; intros [|n code]; try done.
  simpl. by rewrite put_Permutation, IH.
Qed.

Lemma arrange_complete {A} (rows order : list A) :
  rows ≡ₚ order → ∃ code, Sql.arrange code rows = order.
Proof.
  revert order. induction rows as [|x rows IH]; intros order Hp.
  - apply Permutation_nil in Hp as ->. by exists [].
  - assert (x ∈ order) as Hx by (rewrite <-Hp; left).
    apply list_elem_of_split in Hx as (l1 & l2 & ->).
    apply Permutation_cons_app_inv in Hp.
    destruct (IH _ Hp) as [code Hcode].
    exists (length l1 :: code). simpl. rewrite Hcode. unfold Sql.put.
    by rewrite take_app_length, drop_app_length.
Qed.

Lemma insert_by_Permutation {A} (R : relation A) `{!RelDecision R} x l :
  Sql.insert_by R x l ≡ₚ x :: l.
Proof.
  induction l as [|y l IH]; [done|]. simpl. case_decide; [done|].
  by rewrite IH, Permutation_swap.
Qed.

Lemma order_by_Permutation {A} (R : relation A) `{!RelDecision R} l :
  Sql.order_by R l ≡ₚ l.
Proof.
  induction l as [|x l IH]; [done|].
  unfold Sql.order_by in *. simpl. by rewrite insert_by_Permutation, IH.
Qed.



(** Rows that come in order are left as they come. *)
Lemma order_by_sorted {A} (R : relation A) `{!RelDecision R} l :
  Sorted R l → Sql.order_by R l = l.
Proof.
  induction 1 as [|x l Hl IH Hx]; [done|].
  unfold Sql.order_by in *. simpl. rewrite IH.
  destruct Hx as [|y l Hxy]; [done|]. simpl. by rewrite decide_True.
Qed.

Lemma select_page_sound w limit skip d r :
  r ∈ Sql.select_page w limit skip d →
  r ∈ Posts d ∧ Sql.where_ d w r = true.
Proof.
  unfold Sql.select_page. intros H.
  apply subseteq_take, subseteq_drop in H.
  rewrite order_by_Permutation, arrange_Permutation in H.
  apply list_elem_of_filter in H as [H ?]. split; [done|].
  by apply Is_true_true.
Qed.

Lemma where_holds d w r c :
  Sql.where_ d w r = true → c ∈ w → Sql.holds d r c = true.
Proof.
  unfold Sql.where_. rewrite forallb_forall. intros H Hc.
  by apply H, list_elem_of_In.
Qed.

(** C9, as stated, fails in three ways on the sample store, each time
    with both posts listed: for [created_by=0], though their creators are
    5 and 7; for [interest_id=0], though no post has that association; and
    for the search text [_], though no title and no body holds that
    character. *)
Lemma filters_not_applied_as_stated :
  let page i u q :=
    content (reply_of (serve (get_posts Sample.gateway 0 10 i u q)
                             Sample.store)) in
  let both body :=
    py_get "items" body
    = Some (PList (map (item_of Sample.store)
                       [Sample.second_row; Sample.first_row])) in
  (∃ body, page None (Some 0%Z) None = Some (PDict body) ∧ both body)
  ∧ (∃ body, page (Some 0%Z) None None = Some (PDict body) ∧ both body)
  ∧ (∃ body, page None None (Some "_") = Some (PDict body) ∧ both body)
  ∧ Post.created_by <$> [Sample.second_row; Sample.first_row] = [5; 7]%Z
  ∧ Forall (λ pi, pi.2 ≠ 0%Z) (PostInterests Sample.store)
  ∧ Forall (λ text, String.index 0 "_" text = None)
           ["Other"; "Hello"; "World"].
Proof.
  split_and!; [by eexists; vm_compute..|done| |].
  - by repeat constructor.
  - by repeat constructor.
Qed.

(** C9, amended: an identified listing within the bounds of the route
    answers 200, and its filters compose conjunctively, where a filter is
    applied when its parameter is truthy: every post of the page is a
    stored post that has the association when [interest_id] is supplied
    and not 0, whose creator is [created_by] when that is supplied and not
    0, and whose title or body matches the pattern [%search%] when
    [search] is supplied and not empty; for a search text without [%],
    [_] and backslash the match is containment up to letter case. *)
Theorem listing_filters d request skip limit i u q :
  identified request = true →
  (0 ≤ skip)%Z → (1 ≤ limit)%Z → (limit ≤ 100)%Z →
  ∃ rows body,
    status (reply_of (serve (get_posts request skip limit i u q) d)) = 200%Z
    ∧ content (reply_of (serve (get_posts request skip limit i u q) d))
      = Some (PDict body)
    ∧ py_get "items" body = Some (PList (map (item_of d) rows))
    ∧ py_get "total" body
      = Some (PInt (Sql.count_posts (where_clauses i u q) d))
    ∧ ∀ r, r ∈ rows →
        r ∈ Posts d
        ∧ (∀ n, i = Some n → n ≠ 0%Z → (Post.post_id r, n) ∈ PostInterests d)
        ∧ (∀ c, u = Some c → c ≠ 0%Z → Post.created_by r = c)
        ∧ (∀ s, q = Some s → s ≠ "" →
             let pattern := "%" +:+ s +:+ "%" in
             Sql.like pattern (Post.title r) = true
             ∨ ∃ b, Post.body r = Some b ∧ Sql.like pattern b = true)
        ∧ (∀ s, q = Some s → plain s = true →
             contains_ci s (Post.title r)
             ∨ ∃ b, Post.body r = Some b ∧ contains_ci s b).
Proof.
  intros Hid Hs Hl Hu.
  exists (Sql.select_page (where_clauses i u q) limit skip d).
  destruct (get_posts_run d request skip limit i u q Hid Hs Hl Hu)
    as (body & Hbody & Hrep & _).
  exists body. rewrite Hrep.
  destruct (listing_pagination
              (map (item_of d)
                   (Sql.select_page (where_clauses i u q) limit skip d))
              (Sql.count_posts (where_clauses i u q) d) skip limit Hl)
    as (body' & links & Hbody' & Hitems & Htotal & _).
  rewrite Hbody in Hbody'. injection Hbody' as <-.
  split_and!; [done..|].
  intros r [Hin Hw]%select_page_sound.
  assert (∀ s, q = Some s → s ≠ "" →
            Sql.like ("%" +:+ s +:+ "%") (Post.title r) = true
            ∨ ∃ b, Post.body r = Some b
                   ∧ Sql.like ("%" +:+ s +:+ "%") b = true) as Hsearch.
  { intros s -> Hne.
    assert (Sql.holds d r (BySearch ("%" +:+ s +:+ "%")) = true) as H.
    { apply (where_holds _ _ _ _ Hw). unfold where_clauses.
      rewrite !elem_of_app. right. right. destruct s; [done|]. simpl. left. }
    simpl in H. apply orb_true_iff in H as [H|H]; [by left|right].
    destruct (Post.body r) as [b|]; [|done]. by exists b. }
  split_and!; [done|..|done|].
  - intros n -> Hn.
    assert (Sql.holds d r (ByInterest n) = true) as H.
    { apply (where_holds _ _ _ _ Hw). unfold where_clauses.
      rewrite !elem_of_app. left. simpl.
      assert (negb (n =? 0)%Z = true) as -> by (apply negb_true_iff; lia).
      left. }
    simpl in H. apply existsb_exists in H as ([p n'] & Hp & H).
    apply andb_true_iff in H as [H1 H2]. simpl in *.
    apply Z.eqb_eq in H1, H2. subst. by apply list_elem_of_In.
  - intros c -> Hc.
    assert (Sql.holds d r (ByCreator c) = true) as H.
    { apply (where_holds _ _ _ _ Hw). unfold where_clauses.
      rewrite !elem_of_app. right. left. simpl.
      assert (negb (c =? 0)%Z = true) as -> by (apply negb_true_iff; lia).
      left. }
    simpl in H. lia.
  - intros s Hq Hp. destruct (decide (s = "")) as [->|Hne].
    + left. by exists "", "", (Post.title r).
    + destruct (Hsearch s Hq Hne) as [H|(b & Hb & H)].
      * left. by apply like_substring.
      * right. exists b. split; [done|]. by apply like_substring.
Qed.

Lemma listing_filters_witness :
  ∃ rows body,
    content (reply_of (serve (get_posts Sample.gateway 0 10 None (Some 7%Z)
                                (Some "ELL")) Sample.store))
    = Some (PDict body)
    ∧ py_get "items" body = Some (PList (map (item_of Sample.store) rows))
    ∧ Forall (λ r, Post.created_by r = 7%Z) rows.
Proof.
  destruct (listing_filters Sample.store Sample.gateway 0 10 None (Some 7%Z)
              (Some "ELL") eq_refl ltac:(lia) ltac:(lia) ltac:(lia))
    as (rows & body & _ & H1 & H2 & _ & H).
  exists rows, body. split_and!; [done..|].
  apply Forall_forall. intros r Hr.
  destruct (H r Hr) as (_ & _ & Hc & _). by apply Hc.
Defined.

(** * Further properties of the router *)

(** ** The identity header, whatever its case and its place *)

Lemma headers_get_first before name value rest key :
  Forall (λ h, PyStr.lower h.1 ≠ PyStr.lower key) before →
  PyStr.lower name = PyStr.lower key →
  headers_get (mkRequest (before ++ (name, value) :: rest)) key = Some value.
Proof.
  intros Hb Hn. unfold headers_get. cbn [request_headers].
  induction Hb as [|h before Hh _ IH]; simpl.
  - by rewrite Hn, String.eqb_refl.
  - apply String.eqb_neq in Hh. by rewrite Hh.
Qed.

Lemma headers_get_none hs key :
  Forall (λ h, PyStr.lower h.1 ≠ PyStr.lower key) hs →
  headers_get (mkRequest hs) key = None.
Proof.
  intros Hb. unfold headers_get. cbn [request_headers].
  induction Hb as [|h before Hh _ IH]; simpl; [done|].
  apply String.eqb_neq in Hh. by rewrite Hh.
Qed.

(** The identity is the value of the first header named
    [x-firebase-uid] under any spelling of that name, wherever it stands
    among the headers: it is returned as it was sent when it is not
    empty, and the request is refused with 401 when it is empty or when
    no header has that name.  The session is left as it was. *)
Theorem identity_header_verbatim before name uid rest hs s :
  Forall (λ h, PyStr.lower h.1 ≠ "x-firebase-uid") before →
  PyStr.lower name = "x-firebase-uid" →
  Forall (λ h, PyStr.lower h.1 ≠ "x-firebase-uid") hs →
  get_firebase_uid_from_header (mkRequest (before ++ (name, uid) :: rest)) s
  = (match uid with "" => Raise unauthenticated | _ => Return uid end, s)
  ∧ get_firebase_uid_from_header (mkRequest hs) s = (Raise unauthenticated, s).
Proof.
  intros Hb Hname Hnone. split.
  - unfold get_firebase_uid_from_header, py_or.
    rewrite headers_get_any_case.
    rewrite (headers_get_first before name uid rest "x-firebase-uid") by done.
    by destruct uid.
  - unfold get_firebase_uid_from_header, py_or.
    rewrite headers_get_any_case.
    by rewrite (headers_get_none hs "x-firebase-uid").
Qed.

Lemma identity_header_verbatim_witness :
  get_firebase_uid_from_header
    (mkRequest [("accept", "*/*"); ("X-FIREBASE-Uid", "u 1");
                ("x-firebase-uid", "other")])
    (mkSession Sample.store Sample.store [])
  = (Return "u 1", mkSession Sample.store Sample.store []).
Proof.
  apply (identity_header_verbatim [("accept", "*/*")] "X-FIREBASE-Uid" "u 1"
           [("x-firebase-uid", "other")] []);
    [by repeat constructor|reflexivity|constructor].
Defined.

Lemma guarded_routes_require_identity_witness :
  serve (route (GetPosts 0 10 None None None) Sample.blank) Sample.store
  = (respond (Raise unauthenticated), Sample.store, []).
Proof.
  apply guarded_routes_require_identity; [reflexivity|reflexivity|done].
Defined.

(** ** Creating never reaches the store *)

(** Whatever is posted, [create_post] changes nothing: without the
    identity header it answers 401, with it the read of
    [post.created_by] fails and the answer is 500; in both cases no
    statement is executed. *)
Theorem create_post_never_writes post request d :
  let out := serve (create_post post request) d in
  status (reply_of out) = (if identified request then 500 else 401)%Z
  ∧ store_of out = d
  ∧ Forall (λ e, ∀ q, e ≠ Execute q) (ops_of out).
Proof.
  unfold serve, create_post, bind, reply_of, store_of, ops_of.
  destruct (identified request) eqn:Hid.
  - destruct (identity_accepted request (mkSession d d []) Hid) as [uid ->].
    simpl. split_and!; [done..|]. by repeat constructor.
  - rewrite (identity_required request _ Hid). simpl.
    split_and!; [done..|]. constructor.
Qed.

(** ** Posts that are not there *)

Lemma update_missing_post d request post_id post created_by if_match :
  identified request = true →
  Sql.select_post post_id d = None →
  let out := serve (update_post post_id post request created_by if_match) d in
  status (reply_of out) = 404%Z ∧ store_of out = d
  ∧ Forall no_write (ops_of out).
Proof.
  intros Hid Hsel.
  unfold serve, update_post, bind, reply_of, store_of, ops_of.
  destruct (identity_accepted request (mkSession d d []) Hid) as [uid ->].
  simpl. rewrite Hsel. simpl. split_and!; [done..|]. by apply no_write_log.
Qed.

Lemma delete_missing_post d request post_id created_by :
  identified request = true →
  Sql.select_post post_id d = None →
  let out := serve (delete_post post_id request created_by) d in
  status (reply_of out) = 404%Z ∧ store_of out = d
  ∧ Forall no_write (ops_of out).
Proof.
  intros Hid Hsel.
  unfold serve, delete_post, bind, reply_of, store_of, ops_of.
  destruct (identity_accepted request (mkSession d d []) Hid) as [uid ->].
  simpl. rewrite Hsel. simpl. split_and!; [done..|]. by apply no_write_log.
Qed.

Lemma get_missing_post d request post_id if_none_match :
  Sql.select_post post_id d = None →
  let out := serve (get_post post_id request if_none_match) d in
  status (reply_of out) = 404%Z ∧ store_of out = d
  ∧ Forall no_write (ops_of out).
Proof.
  intros Hsel.
  unfold serve, get_post, bind, reply_of, store_of, ops_of.
  simpl. rewrite Hsel. simpl. split_and!; [done..|]. by apply no_write_log.
Qed.

(** For an id with no stored post, an identified update or delete, and
    any read, answer 404; nothing is written and the store is as before. *)
Theorem missing_post_is_404 d request post_id :
  identified request = true →
  Sql.select_post post_id d = None →
  (∀ post created_by if_match,
     let out := serve (update_post post_id post request created_by if_match) d in
     status (reply_of out) = 404%Z ∧ store_of out = d
     ∧ Forall no_write (ops_of out))
  ∧ (∀ created_by,
       let out := serve (delete_post post_id request created_by) d in
       status (reply_of out) = 404%Z ∧ store_of out = d
       ∧ Forall no_write (ops_of out))
  ∧ (∀ if_none_match,
       let out := serve (get_post post_id request if_none_match) d in
       status (reply_of out) = 404%Z ∧ store_of out = d
       ∧ Forall no_write (ops_of out)).
Proof.
  intros Hid Hsel. split_and!.
  - intros post created_by if_match. by apply update_missing_post.
  - intros created_by. by apply delete_missing_post.
  - intros if_none_match. by apply get_missing_post.
Qed.

Lemma missing_post_is_404_witness :
  status (reply_of (serve (delete_post 9 Sample.gateway 7) Sample.store))
  = 404%Z.
Proof.
  destruct (missing_post_is_404 Sample.store Sample.gateway 9 eq_refl eq_refl)
    as (_ & H & _).
  apply (H 7%Z).
Defined.

(** ** Deleting a post *)

(** An identified delete by the creator answers 200 with the id; the post
    is gone afterwards, every other post is as it was, and reading or
    deleting the same id again answers 404. *)
Theorem delete_removes_the_post d request post_id row :
  identified request = true →
  Sql.select_post post_id d = Some row →
  let out := serve (delete_post post_id request (Post.created_by row)) d in
  reply_of out
  = mkReply 200 []
      (Some (PDict [("status", PStr "deleted"); ("post_id", PInt post_id)]))
  ∧ Sql.select_post post_id (store_of out) = None
  ∧ (∀ id, id ≠ post_id →
       Sql.select_post id (store_of out) = Sql.select_post id d)
  ∧ (∀ if_none_match,
       status (reply_of (serve (get_post post_id request if_none_match)
                               (store_of out))) = 404%Z)
  ∧ (∀ created_by,
       status (reply_of (serve (delete_post post_id request created_by)
                               (store_of out))) = 404%Z).
Proof.
  intros Hid Hsel out.
  assert (reply_of out
          = mkReply 200 []
              (Some (PDict [("status", PStr "deleted");
                            ("post_id", PInt post_id)]))
          ∧ store_of out = Sql.delete_post post_id d) as [Hr Hs].
  { unfold out, serve, delete_post, bind, reply_of, store_of.
    destruct (identity_accepted request (mkSession d d []) Hid) as [uid ->].
    simpl. rewrite Hsel. simpl. by rewrite Z.eqb_refl. }
  assert (Sql.select_post post_id (store_of out) = None) as Hgone.
  { rewrite Hs, select_post_delete. by case_decide. }
  split_and!; [done|done| | |].
  - intros id Hne. rewrite Hs, select_post_delete. by case_decide.
  - intros inm. by apply get_missing_post.
  - intros c. by apply delete_missing_post.
Qed.

Lemma delete_removes_the_post_witness :
  Sql.select_post 1
    (store_of (serve (delete_post 1 Sample.gateway 7) Sample.store)) = None.
Proof.
  apply (delete_removes_the_post Sample.store Sample.gateway 1 Sample.first_row);
    reflexivity.
Defined.

(** ** The statuses of the routes *)

Section Statuses.
Variable S : Z → Prop.

Lemma raises_ret {A} (a : A) : raises S (ret a).
Proof. by intros s e s'. Qed.

Lemma raises_raise {A} e :
  S (status (respond (Raise e))) → raises S (@raise A e).
Proof. intros H s e' s' [= <- _]. done. Qed.

Lemma raises_bind {A B} (m : M A) (k : A → M B) :
  raises S m → (∀ a, raises S (k a)) → raises S (bind m k).
Proof.
  intros Hm Hk s e s'. unfold bind.
  destruct (m s) as [[a|e0] s0] eqn:E.
  - apply Hk.
  - intros [= <- _]. by eapply Hm.
Qed.

Lemma raises_fetch {A} q (f : db → A) : raises S (fetch q f).
Proof. by intros s e s'. Qed.

Lemma raises_commit : raises S commit.
Proof. by intros s e s'. Qed.

Lemma raises_close : raises S close.
Proof. by intros s e s'. Qed.

Lemma raises_get_connection : raises S get_connection.
Proof. by intros s e s'. Qed.

Lemma raises_get_post_interests id : raises S (get_post_interests id).
Proof. by intros s e s'. Qed.

Lemma raises_execute q : S 500%Z → raises S (execute q).
Proof.
  intros H s e s'. unfold execute.
  destruct (exec q (txn s)); [done|]. by intros [= <- _].
Qed.

Lemma raises_identity request :
  S 401%Z → raises S (get_firebase_uid_from_header request).
Proof.
  intros H s e s'. destruct (identified request) eqn:E.
  - by destruct (identity_accepted request s E) as [uid ->].
  - rewrite (identity_required request s E). by intros [= <- _].
Qed.

Lemma raises_associate_interests p ids :
  S 400%Z → S 500%Z → raises S (associate_interests p ids).
Proof.
  intros H4 H5. induction ids as [|i ids IH]; simpl; [apply raises_ret|].
  apply raises_bind; [apply raises_fetch|]. intros [found|].
  - apply raises_bind; [by apply raises_execute|done].
  - apply raises_bind; [apply raises_close|intros; by apply raises_raise].
Qed.

Lemma raises_check_if_match id row if_match :
  S 412%Z → raises S (check_if_match id row if_match).
Proof.
  intros H. unfold check_if_match. case_match; [|apply raises_ret].
  apply raises_bind; [apply raises_get_post_interests|intros].
  case_match; [|apply raises_ret].
  apply raises_bind; [apply raises_close|intros; by apply raises_raise].
Qed.

Lemma raises_check_query skip limit :
  S 422%Z → raises S (check_query skip limit).
Proof.
  intros H s e s'. unfold check_query.
  destruct (query_errors skip limit); [done|]. by intros [= <- _].
Qed.


Lemma raises_update_fields id post : S 500%Z → raises S (update_fields id post).
Proof.
  intros H5. unfold update_fields. case_match; [|apply raises_ret].
  apply raises_bind; [by apply raises_execute|intros; apply raises_commit].
Qed.

Lemma raises_update_interests id post :
  S 400%Z → S 500%Z → raises S (update_interests id post).
Proof.
  intros H4 H5. unfold update_interests. case_match; [|apply raises_ret].
  apply raises_bind; [by apply raises_execute|intros _].
  apply raises_bind;
    [by apply raises_associate_interests|intros; apply raises_commit].
Qed.



Lemma raises_mapM {A B} (f : A → M B) l :
  (∀ a, raises S (f a)) → raises S (mapM f l).
Proof.
  intros Hf. induction l as [|a l IH]; simpl; [apply raises_ret|].
  apply raises_bind; [done|]. intros b.
  apply raises_bind; [done|]. intros bs. apply raises_ret.
Qed.

Lemma raises_enrich_item row : raises S (enrich_item row).
Proof.
  unfold enrich_item. apply raises_bind; [|intros; apply raises_ret].
  case_match; [|apply raises_ret].
  apply raises_bind; [apply raises_get_post_interests|intros; apply raises_ret].
Qed.

Lemma answers_ret rep : S (status rep) → answers S (ret rep).
Proof. by intros H s. Qed.

Lemma answers_return_post code hs post :
  S code → S 500%Z → answers S (return_post code hs post).
Proof.
  intros Hc H5 s. unfold return_post.
  by destruct (PostResponse.serialize post).
Qed.

Lemma answers_raise e : S (status (respond (Raise e))) → answers S (raise e).
Proof. by intros H s. Qed.

Lemma answers_bind {A} (m : M A) (k : A → M reply) :
  raises S m → (∀ a, answers S (k a)) → answers S (bind m k).
Proof.
  intros Hm Hk s. unfold bind. destruct (m s) as [[a|e] s'] eqn:E.
  - apply Hk.
  - by eapply Hm.
Qed.
End Statuses.

(** Membership in an explicit list. *)
Ltac listed := simpl; by repeat (first [left | right]).

(** Each route answers with one of a fixed set of statuses, whatever the
    request and the store: the listing 200, 401 or 422, the read of one
    post 200, 304, 404 or 500, a create 401 or 500, an update 200, 400,
    401, 403, 404, 412 or 500, a delete 200, 401, 403 or 404, the list of
    interests 200 or 401. *)
Theorem route_statuses c request d :
  status (reply_of (serve (route c request) d)) ∈ statuses c.
Proof.
  assert (answers (λ z, z ∈ statuses c) (route c request)) as H.
  { destruct c; simpl.
    - unfold get_posts.
      destruct (query_errors skip limit) as [|p ps] eqn:Hq.
      + apply query_errors_nil in Hq as (Hs & Hl & Hu).
        apply answers_bind; [apply raises_check_query; listed|intros _].
        apply answers_bind; [apply raises_identity; listed|intros uid].
        apply answers_bind; [apply raises_get_connection|intros _].
        apply answers_bind; [apply raises_fetch|intros total].
        apply answers_bind; [apply raises_fetch|intros rows].
        apply answers_bind; [apply raises_close|intros _].
        apply answers_bind;
          [apply raises_mapM, raises_enrich_item|intros posts].
        destruct (listing_pagination posts total skip limit Hl)
          as (body & links & -> & _).
        apply answers_ret. listed.
      + intros s. unfold bind. rewrite check_query_refuses by (by rewrite Hq).
        listed.
    - unfold get_post.
      apply answers_bind; [apply raises_get_connection|intros _].
      apply answers_bind; [apply raises_fetch|intros post].
      apply answers_bind; [apply raises_close|intros _].
      case_match; [|apply answers_raise; listed].
      apply answers_bind; [apply raises_get_post_interests|intros].
      case_match; [apply answers_ret|apply answers_return_post]; listed.
    - unfold create_post.
      apply answers_bind; [apply raises_identity; listed|intros uid].
      apply answers_bind; [apply raises_get_connection|intros _].
      apply answers_raise. listed.
    - unfold update_post.
      apply answers_bind; [apply raises_identity; listed|intros uid].
      apply answers_bind; [apply raises_get_connection|intros _].
      apply answers_bind; [apply raises_fetch|intros existing].
      case_match;
        [|apply answers_bind;
           [apply raises_close
           |intros; apply answers_raise; listed]].
      case_match;
        [apply answers_bind;
           [apply raises_close
           |intros; apply answers_raise; listed]|].
      apply answers_bind; [apply raises_check_if_match; listed|intros _].
      unfold apply_update.
      apply answers_bind; [apply raises_update_fields; listed|intros _].
      apply answers_bind; [apply raises_update_interests; listed|intros _].
      unfold fetch_updated_post.
      apply answers_bind; [apply raises_fetch|intros updated].
      apply answers_bind; [apply raises_close|intros _].
      case_match; [|apply answers_raise; listed].
      apply answers_bind; [apply raises_get_post_interests|intros].
      apply answers_return_post; listed.
    - unfold delete_post.
      apply answers_bind; [apply raises_identity; listed|intros uid].
      apply answers_bind; [apply raises_get_connection|intros _].
      apply answers_bind; [apply raises_fetch|intros post].
      case_match;
        [|apply answers_bind;
           [apply raises_close
           |intros; apply answers_raise; listed]].
      case_match;
        [apply answers_bind;
           [apply raises_close
           |intros; apply answers_raise; listed]|].
      apply answers_bind; [|intros _].
      { intros s e s'. unfold execute. simpl. done. }
      apply answers_bind; [apply raises_commit|intros _].
      apply answers_bind; [apply raises_close|intros _].
      apply answers_ret. listed.
    - unfold get_interests.
      apply answers_bind; [apply raises_identity; listed|intros uid].
      apply answers_bind; [apply raises_get_connection|intros _].
      apply answers_bind; [apply raises_fetch|intros interests].
      apply answers_bind; [apply raises_close|intros _].
      apply answers_ret. listed. }
  unfold serve, reply_of. specialize (H (mkSession d d [])).
  by destruct (route c request (mkSession d d [])) as [r s'].
Qed.

(** ** Null fields of an update *)

Lemma drop_nulls_same_payload post :
  assignments (PostUpdate.scalar_items (drop_nulls post))
  = assignments (PostUpdate.scalar_items post)
  ∧ PostUpdate.pop_interest_ids (drop_nulls post)
    = PostUpdate.pop_interest_ids post.
Proof.
  destruct post as [t b i ids]. unfold drop_nulls, PostUpdate.scalar_items,
    PostUpdate.pop_interest_ids, assignments. simpl.
  by destruct t, b, i, ids.
Qed.

Lemma apply_update_drop_nulls id post s :
  apply_update id (drop_nulls post) s = apply_update id post s.
Proof.
  unfold apply_update, update_fields, update_interests.
  destruct (drop_nulls_same_payload post) as [-> ->]. done.
Qed.

(** A field sent as [null] is treated exactly as a field left out: the
    response, the resulting store and the store operations are the same.
    In particular no column can be set to NULL and a null [interest_ids]
    leaves the associations alone. *)
Theorem null_fields_are_omitted d request post_id post created_by if_match :
  serve (update_post post_id (drop_nulls post) request created_by if_match) d
  = serve (update_post post_id post request created_by if_match) d.
Proof.
  unfold serve. f_equal. unfold update_post, bind.
  destruct (get_firebase_uid_from_header request _) as [[uid|e] s1]; [|done].
  destruct (get_connection s1) as [[[]|e] s2]; [|done].
  destruct (fetch _ _ s2) as [[[row|]|e] s3]; [| |done].
  - destruct (negb _); [done|].
    destruct (check_if_match post_id row if_match s3) as [[[]|e] s4]; [|done].
    by rewrite apply_update_drop_nulls.
  - done.
Qed.

(** ** Replacing the interests of a post *)

(** With every id present and the post free of them, the loop inserts one
    association row per id, in order, in the open transaction. *)
Lemma associate_all p ids s :
  Forall (λ i, is_Some (Sql.select_interest i (txn s))) ids →
  Forall (λ i, Sql.has_pair p i (txn s) = false) ids →
  NoDup ids →
  ∃ l, associate_interests p ids s
       = (Return tt,
          mkSession (disk s)
            (mkDb (Posts (txn s)) (Interests (txn s))
                  (PostInterests (txn s) ++ map (λ i, (p, i)) ids)
                  (next_post_id (txn s)) (clock (txn s)) (ties (txn s)))
            (log s ++ l)).
Proof.
  revert s. induction ids as [|i ids IH]; intros s Hex Hfree Hnd; simpl.
  - exists []. rewrite !app_nil_r. by destruct s as [dk [] lg].
  - apply Forall_cons in Hex as [[found Hi] Hex].
    apply Forall_cons in Hfree as [Hfi Hfree].
    apply NoDup_cons in Hnd as [Hni Hnd].
    unfold bind at 1. unfold fetch at 1. simpl. rewrite Hi.
    unfold bind at 1. unfold execute at 1. simpl. rewrite Hfi.
    destruct (IH (mkSession (disk s)
                    (Sql.insert_post_interest p i (txn s))
                    ((log s ++ [Execute (SelectInterest i)])
                       ++ [Execute (InsertPostInterest p i)])))
      as [l Hrun]; simpl; try done.
    + apply Forall_forall. intros j Hj. rewrite has_pair_insert.
      rewrite Forall_forall in Hfree. rewrite (Hfree j Hj). simpl.
      case_bool_decide; [by subst|done].
    + rewrite Hrun. simpl. eexists. f_equal. f_equal.
      * f_equal. by rewrite <-app_assoc.
      * by rewrite <-!app_assoc.
Qed.

(** The store with the associations of a post replaced. *)
Lemma update_interests_run post_id post d l ids :
  PostUpdate.interest_ids post = Given ids →
  Forall (λ i, is_Some (Sql.select_interest i d)) ids →
  NoDup ids →
  let d' := mkDb (Posts d) (Interests d) (relinked post_id ids d)
                 (next_post_id d) (clock d) (ties d) in
  ∃ l', update_interests post_id post (mkSession d d l)
        = (Return tt, mkSession d' d' l').
Proof.
  intros Hids Hex Hnd d'.
  unfold update_interests, PostUpdate.pop_interest_ids. rewrite Hids.
  destruct (associate_all post_id ids
              (mkSession d (Sql.delete_post_interests post_id d)
                         (l ++ [Execute (DeletePostInterests post_id)])))
    as [l2 Hrun]; simpl; try done.
  { apply Forall_forall. intros i _. apply has_pair_unlinked. }
  erewrite bind_return; [|reflexivity].
  erewrite bind_return; [|exact Hrun].
  by eexists.
Qed.

(** An accepted update whose [interest_ids] are all known and pairwise
    distinct leaves the post with exactly those associations, in place of
    the ones it had; the associations of the other posts and the
    interests are as before, and the scalar fields are assigned as
    without the list.  An empty list clears the post's associations.  The
    answer is 200 when the post has a creation time and 500 when it has
    none. *)
Theorem interests_are_replaced d request post_id post created_by if_match
    row ids :
  identified request = true →
  Sql.select_post post_id d = Some row →
  Post.created_by row = created_by →
  precondition_holds d post_id row if_match = true →
  PostUpdate.interest_ids post = Given ids →
  Forall (λ i, is_Some (Sql.select_interest i d)) ids →
  NoDup ids →
  let out := serve (update_post post_id post request created_by if_match) d in
  status (reply_of out)
  = (if Post.created_at row is Some _ then 200 else 500)%Z
  ∧ PostInterests (store_of out) = relinked post_id ids d
  ∧ Interests (store_of out) = Interests d
  ∧ Posts (store_of out) = Posts (after_fields post_id post d).
Proof.
  intros Hid Hsel Hown Hpre Hids Hex Hnd out.
  destruct (update_post_passes_precondition d request post_id post created_by
              if_match row Hid Hsel Hown Hpre) as (l & Hrun & _).
  set (d1 := after_fields post_id post d).
  destruct (after_fields_tables post_id post d) as [HI HP]. fold d1 in HI, HP.
  destruct (update_interests_run post_id post d1
              (l ++ if is_nonempty (assignments (PostUpdate.scalar_items post))
                    then [Execute (UpdatePost
                                     (assignments (PostUpdate.scalar_items post))
                                     post_id); Commit] else [])
              ids Hids) as [l2 H2]; [|done|].
  { eapply Forall_impl; [exact Hex|]. intros i.
    unfold Sql.select_interest. by rewrite HI. }
  pose proof (select_post_after_fields post_id post d row Hsel) as Hnew.
  rewrite set_columns_assigned in Hnew. fold d1 in Hnew.
  set (d2 := mkDb (Posts d1) (Interests d1) (relinked post_id ids d1)
                  (next_post_id d1) (clock d1) (ties d1)) in *.
  assert (∃ l', update_post post_id post request created_by if_match
                  (mkSession d d [])
                = (match Post.created_at row with
                   | Some t =>
                       Return (mkReply 200
                         [("ETag", PyStr.quoted
                            (generate_etag (resource d2 (assigned post row) t)))]
                         (Some (PDict (resource d2 (assigned post row) t))))
                   | None => Raise (Uncaught "ResponseValidationError")
                   end, mkSession d2 d2 l'))
    as (l' & Hout).
  { rewrite Hrun. unfold apply_update.
    rewrite (bind_return _ _ _ _ _ (update_fields_run post_id post d l)).
    fold d1. rewrite (bind_return _ _ _ _ _ H2).
    rewrite (fetch_updated_post_run post_id _ (assigned post row))
      by exact Hnew.
    by eexists. }
  unfold out, serve, reply_of, store_of. rewrite Hout. cbn [fst snd disk].
  unfold d2. cbn [Posts Interests PostInterests]. split_and!.
  - by destruct (Post.created_at row).
  - unfold relinked. by rewrite HP.
  - done.
  - done.
Qed.

Lemma interests_are_replaced_witness :
  PostInterests
    (store_of (serve (update_post 1
                        (PostUpdate.mk Unset Unset Unset (Given [2%Z]))
                        Sample.gateway 7 None) Sample.store))
  = relinked 1 [2%Z] Sample.store.
Proof.
  apply (interests_are_replaced Sample.store Sample.gateway 1 _ 7 None
           Sample.first_row [2%Z]); try reflexivity.
  - repeat constructor; by eexists.
  - by apply (bool_decide_unpack (NoDup [2%Z])).
Defined.

(** ** What a successful update returns *)







(** ** The interests of a post *)

Lemma select_post_interests_join d id i n :
  (i, n) ∈ Sql.select_post_interests id d
  ↔ (i, n) ∈ Interests d ∧ (id, i) ∈ PostInterests d.
Proof.
  unfold Sql.select_post_interests.
  rewrite !list_elem_of_In, in_flat_map. split.
  - intros ([i' n'] & Hi & H). apply in_flat_map in H as ([p j] & Hp & H).
    simpl in H. destruct ((p =? id)%Z && (j =? i')%Z) eqn:E; [|done].
    apply andb_true_iff in E as [?%Z.eqb_eq ?%Z.eqb_eq]. subst.
    destruct H as [[= -> ->]|[]]. done.
  - intros [Hi Hp]. exists (i, n). split; [done|].
    apply in_flat_map. exists (id, i). split; [done|].
    simpl. rewrite !Z.eqb_refl. by left.
Qed.

Lemma interest_dict_inj a b : interest_dict a = interest_dict b → a = b.
Proof. destruct a, b. by intros [= -> ->]. Qed.

(** The interests [GET] shows for a post that has a creation time are
    the rows of [Interests] that an association row links to it, each
    with its id and its name: an association with an unknown interest
    shows nothing, and neither does an unlinked interest. *)
Theorem shown_interests_are_the_linked_ones d request post_id row t :
  Sql.select_post post_id d = Some row →
  Post.created_at row = Some t →
  ∃ body shown,
    content (reply_of (serve (get_post post_id request None) d))
    = Some (PDict body)
    ∧ py_get "interests" body = Some (PList shown)
    ∧ ∀ i n, PDict [("interest_id", PInt i); ("interest_name", PStr n)] ∈ shown
             ↔ (i, n) ∈ Interests d ∧ (post_id, i) ∈ PostInterests d.
Proof.
  intros Hsel Ht.
  exists (resource d row t),
         (map interest_dict (Sql.select_post_interests post_id d)).
  pose proof (select_post_id _ _ _ Hsel) as Hid.
  split_and!.
  - rewrite (get_post_run d post_id request None row Hsel).
    change (tag_matches None _) with false. cbv iota. by rewrite Ht.
  - unfold resource, shown_interests. by rewrite Hid.
  - intros i n. rewrite <-select_post_interests_join.
    change (PDict [("interest_id", PInt i); ("interest_name", PStr n)])
      with (interest_dict (i, n)). split.
    + intros ([i' n'] & E & H)%list_elem_of_fmap.
      by apply interest_dict_inj in E as [= -> ->].
    + intros H. apply list_elem_of_fmap. by exists (i, n).
Qed.

Lemma shown_interests_are_the_linked_ones_witness :
  ∃ body shown,
    content (reply_of (serve (get_post 1 Sample.anonymous None) Sample.store))
    = Some (PDict body)
    ∧ py_get "interests" body = Some (PList shown)
    ∧ ∀ i n, PDict [("interest_id", PInt i); ("interest_name", PStr n)] ∈ shown
             ↔ (i, n) ∈ Interests Sample.store
               ∧ (1%Z, i) ∈ PostInterests Sample.store.
Proof.
  apply (shown_interests_are_the_linked_ones Sample.store Sample.anonymous 1
           Sample.first_row Sample.noon); reflexivity.
Defined.

(** ** Items of the listing *)




(** ** Routes that only read *)

Lemma quiet_ret {A} (a : A) : quiet (ret a).
Proof. intros s. split; [done|]. exists []. by rewrite app_nil_r. Qed.

Lemma quiet_raise {A} e : quiet (@raise A e).
Proof. intros s. split; [done|]. exists []. by rewrite app_nil_r. Qed.

Lemma quiet_bind {A B} (m : M A) (k : A → M B) :
  quiet m → (∀ a, quiet (k a)) → quiet (bind m k).
Proof.
  intros Hm Hk s. unfold bind. destruct (Hm s) as (Hd & l1 & Hl & H1).
  destruct (m s) as [[a|e] s1]; simpl in *; [|by eauto].
  destruct (Hk a s1) as (Hd' & l2 & Hl' & H2). split; [congruence|].
  exists (l1 ++ l2). split.
  - by rewrite Hl', Hl, app_assoc.
  - by apply Forall_app.
Qed.

Lemma quiet_event e s :
  no_write e →
  disk (emit e s) = disk s
  ∧ ∃ l, log (emit e s) = log s ++ l ∧ Forall no_write l.
Proof. intros H. split; [done|]. exists [e]. split; [done|]. by constructor. Qed.

Lemma quiet_get_connection : quiet get_connection.
Proof.
  intros s. split; [done|]. exists [Connect]. split; [done|].
  constructor; [|done]. split; [done|]. by intros q.
Qed.

Lemma quiet_fetch {A} q (f : db → A) : is_write q = false → quiet (fetch q f).
Proof.
  intros Hq s. apply quiet_event. split; [done|]. by intros q' [= <-].
Qed.

Lemma quiet_close : quiet close.
Proof. intros s. apply quiet_event. split; [done|]. by intros q. Qed.

Lemma quiet_get_post_interests id : quiet (get_post_interests id).
Proof.
  intros s. split; [done|]. eexists. split; [done|]. by apply no_write_log.
Qed.

Lemma quiet_identity request : quiet (get_firebase_uid_from_header request).
Proof.
  intros s. destruct (identified request) eqn:E.
  - destruct (identity_accepted request s E) as [uid ->].
    exact (quiet_ret uid s).
  - rewrite (identity_required request s E).
    exact (quiet_raise (A:=string) unauthenticated s).
Qed.

Lemma quiet_check_query skip limit : quiet (check_query skip limit).
Proof.
  unfold check_query.
  destruct (query_errors skip limit); [apply quiet_ret|apply quiet_raise].
Qed.

Lemma quiet_return_post code hs post : quiet (return_post code hs post).
Proof.
  unfold return_post.
  destruct (PostResponse.serialize post); [apply quiet_ret|apply quiet_raise].
Qed.

Lemma quiet_mapM {A B} (f : A → M B) l : (∀ a, quiet (f a)) → quiet (mapM f l).
Proof.
  intros Hf. induction l as [|a l IH]; simpl; [apply quiet_ret|].
  apply quiet_bind; [done|]. intros b.
  apply quiet_bind; [done|]. intros bs. apply quiet_ret.
Qed.

Lemma quiet_enrich_item row : quiet (enrich_item row).
Proof.
  unfold enrich_item. apply quiet_bind; [|intros; apply quiet_ret].
  case_match; [|apply quiet_ret].
  apply quiet_bind; [apply quiet_get_post_interests|intros; apply quiet_ret].
Qed.

(** Listing, reading one post and listing the interests never change the
    store and never send a writing statement or a commit, whatever the
    request. *)
Theorem reading_routes_are_quiet c request d :
  reads_only c = true →
  store_of (serve (route c request) d) = d
  ∧ Forall no_write (ops_of (serve (route c request) d)).
Proof.
  intros Hc.
  assert (quiet (route c request)) as H.
  { destruct c; try done; simpl.
    - unfold get_posts.
      apply quiet_bind; [apply quiet_check_query|intros _].
      apply quiet_bind; [apply quiet_identity|intros uid].
      apply quiet_bind; [apply quiet_get_connection|intros _].
      apply quiet_bind; [by apply quiet_fetch|intros total].
      apply quiet_bind; [by apply quiet_fetch|intros rows].
      apply quiet_bind; [apply quiet_close|intros _].
      apply quiet_bind; [apply quiet_mapM, quiet_enrich_item|intros posts].
      case_match; [apply quiet_ret|apply quiet_raise].
    - unfold get_post.
      apply quiet_bind; [apply quiet_get_connection|intros _].
      apply quiet_bind; [by apply quiet_fetch|intros post].
      apply quiet_bind; [apply quiet_close|intros _].
      case_match; [|apply quiet_raise].
      apply quiet_bind; [apply quiet_get_post_interests|intros].
      case_match; [apply quiet_ret|apply quiet_return_post].
    - unfold get_interests.
      apply quiet_bind; [apply quiet_identity|intros uid].
      apply quiet_bind; [apply quiet_get_connection|intros _].
      apply quiet_bind; [by apply quiet_fetch|intros interests].
      apply quiet_bind; [apply quiet_close|intros _].
      apply quiet_ret. }
  unfold serve, store_of, ops_of.
  destruct (H (mkSession d d [])) as (Hd & l & Hl & Hw).
  destruct (route c request (mkSession d d [])) as [r s']. simpl in *.
  split; [done|]. by rewrite Hl.
Qed.

Lemma reading_routes_are_quiet_witness :
  store_of (serve (route (GetPosts 0 10 (Some 1%Z) None (Some "o"))
                         Sample.gateway) Sample.store) = Sample.store.
Proof.
  apply (reading_routes_are_quiet (GetPosts 0 10 (Some 1%Z) None (Some "o"))
           Sample.gateway Sample.store).
  reflexivity.
Defined.

(** ** What no route changes *)

(** No route writes to [Interests]: after any request the table is as it
    was before. *)
Theorem interests_are_never_written c request d :
  Interests (store_of (serve (route c request) d)) = Interests d.
Proof.
  unfold store_of.
  by apply (serve_route_keeps (λ d', Interests d' = Interests d)).
Qed.

Lemma origins_from_refl d : origins_from d d.
Proof. intros id r' H. by exists r'. Qed.

Lemma origins_from_update d0 a pid d :
  origins_from d0 d → origins_from d0 (Sql.update_post a pid d).
Proof.
  intros H id r'. rewrite select_post_update.
  destruct (Sql.select_post id d) as [r|] eqn:E; [|done]. intros [= <-].
  destruct (H id r E) as (r0 & ? & H1 & H2 & H3). exists r0. split; [done|].
  rewrite <-H1, <-H2, <-H3.
  case_match; [apply set_columns_keep|done].
Qed.

Lemma origins_from_delete d0 pid d :
  origins_from d0 d → origins_from d0 (Sql.delete_post pid d).
Proof.
  intros H id r'. rewrite select_post_delete. case_decide; [done|]. apply H.
Qed.

(** No route changes the id, the creator or the creation time of a
    stored post: a post found after any request was there before under
    the same id with the same three values. *)
Theorem origin_columns_are_immutable c request d :
  origins_from d (store_of (serve (route c request) d)).
Proof.
  unfold store_of.
  apply (serve_route_keeps (origins_from d)); [..|apply origins_from_refl].
  - apply origins_from_update.
  - apply origins_from_delete.
  - done.
  - done.
Qed.

(** ** Listing the interests *)

(** An identified request for the interests answers 200 with one entry
    per row of [Interests], none left out and none repeated. *)
Theorem get_interests_lists_every_interest d request :
  identified request = true →
  ∃ rows,
    reply_of (serve (get_interests request) d)
    = mkReply 200 [] (Some (PList (map interest_dict rows)))
    ∧ rows ≡ₚ Interests d.
Proof.
  intros Hid. exists (Sql.select_interests d). split.
  - unfold serve, get_interests, bind, reply_of.
    by destruct (identity_accepted request (mkSession d d []) Hid) as [uid ->].
  - unfold Sql.select_interests.
    by rewrite order_by_Permutation, arrange_Permutation.
Qed.

Lemma get_interests_lists_every_interest_witness :
  ∃ rows,
    reply_of (serve (get_interests Sample.gateway) Sample.store)
    = mkReply 200 [] (Some (PList (map interest_dict rows)))
    ∧ rows ≡ₚ Interests Sample.store.
Proof.
  apply (get_interests_lists_every_interest Sample.store Sample.gateway).
  reflexivity.
Defined.

(** ** Pages *)

Lemma select_page_length w limit skip d :
  (0 ≤ skip)%Z → (0 ≤ limit)%Z →
  Z.of_nat (length (Sql.select_page w limit skip d))
  = page_size (Sql.count_posts w d) skip limit.
Proof.
  intros Hs Hl. unfold Sql.select_page, Sql.count_posts, page_size.
  rewrite length_take, length_drop.
  rewrite (Permutation_length (order_by_Permutation _ _)).
  rewrite (Permutation_length (arrange_Permutation _ _)). lia.
Qed.

(** The page of an identified listing within the bounds of the route
    holds [min limit (total - skip)] items, none when [skip] is past the
    total: it is full whenever [has_more] is set, and never longer than
    [limit]. *)
Theorem page_holds_page_size d request skip limit i u q :
  identified request = true →
  (0 ≤ skip)%Z → (1 ≤ limit)%Z → (limit ≤ 100)%Z →
  let total := Sql.count_posts (where_clauses i u q) d in
  ∃ page items,
    content (reply_of (serve (get_posts request skip limit i u q) d))
    = Some (PDict page)
    ∧ py_get "items" page = Some (PList items)
    ∧ py_get "total" page = Some (PInt total)
    ∧ Z.of_nat (length items) = page_size total skip limit
    ∧ (Z.of_nat (length items) ≤ limit)%Z
    ∧ (py_get "has_more" page = Some (PBool true) →
       Z.of_nat (length items) = limit).
Proof.
  intros Hid Hs Hl Hu total.
  destruct (get_posts_run d request skip limit i u q Hid Hs Hl Hu)
    as (page & Hpage & Hrep & _).
  destruct (listing_pagination
              (map (item_of d)
                   (Sql.select_page (where_clauses i u q) limit skip d))
              (Sql.count_posts (where_clauses i u q) d) skip limit Hl)
    as (page' & links & Hpage' & Hitems & Htotal & Hmore & _).
  rewrite Hpage in Hpage'. injection Hpage' as <-.
  exists page, (map (item_of d)
                    (Sql.select_page (where_clauses i u q) limit skip d)).
  rewrite length_map, select_page_length by lia.
  fold total in Hmore |- *. unfold page_size.
  split_and!; [by rewrite Hrep|done|done|done|lia|].
  rewrite Hmore. intros [= Hb]. apply bool_decide_eq_true in Hb. lia.
Qed.

Lemma page_holds_page_size_witness :
  ∃ page items,
    content (reply_of (serve (get_posts Sample.gateway 1 10 None None None)
                             Sample.store))
    = Some (PDict page)
    ∧ py_get "items" page = Some (PList items)
    ∧ Z.of_nat (length items)
      = page_size (Sql.count_posts (where_clauses None None None)
                                   Sample.store) 1 10.
Proof.
  destruct (page_holds_page_size Sample.store Sample.gateway 1 10 None None
              None eq_refl ltac:(lia) ltac:(lia) ltac:(lia))
    as (page & items & H1 & H2 & _ & H3 & _).
  exists page, items. by split_and!.
Defined.

(** *** Rows created at the same time *)

Lemma lex_ltb_irrefl a : Datetime.lex_ltb a a = false.
Proof.
  induction a as [|x a IH]; [done|]. simpl.
  by rewrite N.ltb_irrefl, N.eqb_refl, IH.
Qed.


Lemma lex_ltb_cotrans a b c :
  Datetime.lex_ltb a b = false → Datetime.lex_ltb b c = false →
  Datetime.lex_ltb a c = false.
Proof.
  revert b c. induction a as [|x a IH]; intros [|y b] [|z c]; simpl; try done.
  destruct (N.ltb_spec x y), (N.ltb_spec y z), (N.ltb_spec x z),
    (N.eqb_spec x y), (N.eqb_spec y z), (N.eqb_spec x z);
    simpl; try done; try lia.
  apply IH.
Qed.

#[local] Instance newest_first_total : Total Sql.newest_first.
Proof.
  intros a b. unfold Sql.newest_first, Sql.older.
  destruct (Post.created_at a) as [x|], (Post.created_at b) as [y|];
    try (by left); try (by right).
  unfold Datetime.ltb.
  destruct (Datetime.lex_ltb (Datetime.key x) (Datetime.key y)) eqn:E;
    [|by left].
  right. destruct (Datetime.lex_ltb (Datetime.key y) (Datetime.key x)) eqn:E';
    [|done].
  pose proof (lex_ltb_cotrans (Datetime.key x) (Datetime.key x)
                (Datetime.key y)) as H.
  destruct (Datetime.lex_ltb (Datetime.key x) (Datetime.key x)) eqn:Ex;
    [by rewrite lex_ltb_irrefl in Ex|].
  exfalso. clear H Ex.
  assert (∀ a b, Datetime.lex_ltb a b = true → Datetime.lex_ltb b a = false)
    as Hasym.
  { clear. intros a. induction a as [|x a IH]; intros [|y b]; simpl; try done.
    destruct (N.ltb_spec x y), (N.ltb_spec y x), (N.eqb_spec x y),
      (N.eqb_spec y x); simpl; try done; try lia.
    apply IH. }
  by rewrite (Hasym _ _ E) in E'.
Qed.

#[local] Instance newest_first_trans : Transitive Sql.newest_first.
Proof.
  intros a b c. unfold Sql.newest_first, Sql.older.
  destruct (Post.created_at a) as [x|], (Post.created_at b) as [y|],
    (Post.created_at c) as [z|]; try done.
  unfold Datetime.ltb. intros H1 H2.
  destruct (Datetime.lex_ltb (Datetime.key x) (Datetime.key z)) eqn:E; [|done].
  (* x < z, while neither x < y nor y < z *)
  assert (Datetime.lex_ltb (Datetime.key x) (Datetime.key z) = false)
    by (by eapply lex_ltb_cotrans).
  congruence.
Qed.


(** The model of the ordered query leaves the server every order that
    [ORDER BY created_at DESC] allows: each list of the matching rows in
    which no row comes before a newer one is the unlimited page for some
    choice of the server. *)
Lemma every_order_is_served w d order :
  order ≡ₚ matching w d →
  Sorted Sql.newest_first order →
  ∃ code, Sql.select_page w (Z.of_nat (length order)) 0 (retied code d) = order.
Proof.
  intros Hp Hs. symmetry in Hp.
  destruct (arrange_complete _ _ Hp) as [code Hcode].
  exists code. unfold Sql.select_page, retied. cbn [ties Posts].
  change (filter _ (Posts d)) with (matching w d).
  rewrite Hcode, (order_by_sorted _ _ Hs), Nat2Z.id. simpl.
  apply firstn_all.
Qed.

(** Two posts created at the same time come in either order. *)
Example tied_rows_come_in_any_order :
  same_tables Sample.tied (retied [2; 1] Sample.tied)
  ∧ Post.post_id <$> Sql.select_page [] 10 0 Sample.tied = [1; 2; 3]%Z
  ∧ Post.post_id <$> Sql.select_page [] 10 0 (retied [2; 1] Sample.tied)
    = [3; 2; 1]%Z.
Proof. by vm_compute. Qed.

(** With posts created at the same time, two pages fetched one after the
    other need not fit together: here post 1 is on the first page and
    again on the second, and post 3 on neither. *)
Example pages_of_tied_rows_overlap :
  Post.post_id <$> Sql.select_page [] 1 0 Sample.tied = [1]%Z
  ∧ Post.post_id <$> Sql.select_page [] 2 1 (retied [2; 1] Sample.tied)
    = [2; 1]%Z.
Proof. by vm_compute. Qed.








(** ** Following the links of a page *)

Lemma pretty_N_go_no_amp x s : no_amp s = true → no_amp (pretty_N_go x s) = true.
Proof.
  revert s. induction (N.lt_wf_0 x) as [x _ IH]; intros s Hs.
  destruct (decide (x = 0)%N) as [->|Hx]; [by rewrite pretty_N_go_0|].
  rewrite pretty_N_go_step by lia. apply IH.
  - apply N.div_lt; lia.
  - simpl. rewrite Hs. unfold pretty_N_char. by repeat case_match.
Qed.

Lemma pretty_Z_no_amp (z : Z) : no_amp (pretty z) = true.
Proof.
  assert (∀ p : positive, no_amp (pretty p) = true) as Hp.
  { intros p. unfold pretty, pretty_positive, pretty, pretty_N.
    case_decide; [done|]. by apply pretty_N_go_no_amp. }
  destruct z as [|p|p]; [done|apply Hp|].
  change (pretty (Z.neg p)) with ("-" +:+ pretty p). simpl. apply Hp.
Qed.

Lemma app_amp_inj s1 s2 t1 t2 :
  no_amp s1 = true → no_amp s2 = true →
  s1 +:+ String "&" t1 = s2 +:+ String "&" t2 → s1 = s2 ∧ t1 = t2.
Proof.
  revert s2. induction s1 as [|c s1 IH]; intros [|c' s2] H1 H2 E; simpl in *.
  - by injection E as ->.
  - injection E as <- _. done.
  - injection E as -> _. done.
  - injection E as -> E.
    apply andb_true_iff in H1 as [_ H1], H2 as [_ H2].
    destruct (IH s2 H1 H2 E) as [-> ->]. done.
Qed.

(** The link of a page names its offset and its limit, and nothing else
    does: two pages with the same link are the same page. *)
Lemma page_link_inj skip limit skip' limit' :
  page_link skip limit = page_link skip' limit' → skip = skip' ∧ limit = limit'.
Proof.
  unfold page_link, link. intros [= E].
  change (pretty skip +:+ String "&" ("limit=" +:+ pretty limit)
          = pretty skip' +:+ String "&" ("limit=" +:+ pretty limit')) in E.
  apply app_amp_inj in E as [E1 E2]; [|apply pretty_Z_no_amp..].
  apply (inj pretty) in E1. apply (inj (String.app "limit=")) in E2.
  apply (inj pretty) in E2. done.
Qed.

(** The links of a page lead where they say: [self] names the page and
    no other, [first] the page at offset 0; when there is a next page its
    link is the [self] of the page at [skip + limit], whose [prev] in turn
    is the [self] of this page; the page at offset 0 has no [prev], and
    the page [last] names has no [next]. *)
Theorem page_links_navigate posts posts' total skip limit :
  (0 ≤ skip)%Z → (1 ≤ limit)%Z →
  let page := listing posts total skip limit in
  let last := Z.max 0 ((total - 1) / limit * limit) in
  link_of "self" page = Some (page_link skip limit)
  ∧ link_of "first" page = Some (page_link 0 limit)
  ∧ link_of "last" page = Some (page_link last limit)
  ∧ ((skip + limit < total)%Z →
     link_of "next" page
     = link_of "self" (listing posts' total (skip + limit) limit)
     ∧ link_of "prev" (listing posts' total (skip + limit) limit)
       = link_of "self" page)
  ∧ link_of "prev" (listing posts' total 0 limit) = Some PNone
  ∧ link_of "next" (listing posts' total last limit) = Some PNone
  ∧ (∀ skip' limit',
       (1 ≤ limit')%Z →
       link_of "self" (listing posts' total skip' limit') = link_of "self" page →
       skip' = skip ∧ limit' = limit).
Proof.
  intros Hs Hl page last.
  assert (∀ items s l, (1 ≤ l)%Z →
            link_of "self" (listing items total s l) = Some (page_link s l)
            ∧ link_of "first" (listing items total s l) = Some (page_link 0 l)
            ∧ link_of "last" (listing items total s l)
              = Some (page_link (Z.max 0 ((total - 1) / l * l)) l)
            ∧ link_of "next" (listing items total s l)
              = Some (if bool_decide (s + l < total)%Z
                      then page_link (s + l) l else PNone)
            ∧ link_of "prev" (listing items total s l)
              = Some (if bool_decide (0 < s)%Z
                      then page_link (Z.max 0 (s - l)) l else PNone)) as Hlinks.
  { intros items s l Hl'. unfold listing, floordiv, link_of.
    assert ((l =? 0)%Z = false) as -> by lia. simpl.
    by rewrite !bool_decide_ltb. }
  destruct (Hlinks posts skip limit Hl) as (Hself & Hfirst & Hlast & Hnext & _).
  fold page in Hself, Hfirst, Hlast, Hnext.
  assert (total ≤ last + limit)%Z as Hend.
  { unfold last.
    pose proof (Z.mul_succ_div_gt (total - 1) limit ltac:(lia)).
    rewrite (Z.mul_comm _ limit). lia. }
  split_and!; [done..| | | |].
  - intros Hlt.
    destruct (Hlinks posts' (skip + limit)%Z limit Hl) as (-> & _ & _ & _ & ->).
    rewrite Hnext, Hself, !bool_decide_true by lia.
    split; [done|]. do 2 f_equal. lia.
  - by destruct (Hlinks posts' 0%Z limit Hl) as (_ & _ & _ & _ & ->).
  - destruct (Hlinks posts' last limit Hl) as (_ & _ & _ & -> & _).
    by rewrite bool_decide_false by lia.
  - intros skip' limit' Hl'.
    destruct (Hlinks posts' skip' limit' Hl') as (-> & _).
    rewrite Hself. intros E. apply page_link_inj. congruence.
Qed.

Lemma page_links_navigate_witness :
  link_of "next" (listing [] 25 20 10) = Some PNone
  ∧ link_of "prev" (listing [] 25 (10 + 10) 10)
    = link_of "self" (listing [] 25 10 10).
Proof.
  split.
  - destruct (page_links_navigate [] [] 25 0 10 ltac:(lia) ltac:(lia))
      as (_ & _ & _ & _ & _ & H & _).
    exact H.
  - destruct (page_links_navigate [] [] 25 10 10 ltac:(lia) ltac:(lia))
      as (_ & _ & _ & H & _).
    apply H. lia.
Defined.

(** ** Parameters out of their bounds *)

(** A listing whose [skip] is negative or whose [limit] is not between 1
    and 100 is answered 422 naming the parameters at fault, whether or
    not the caller is identified, and before any store operation. *)
Theorem listing_bounds_come_first d request skip limit i u q :
  (skip < 0 ∨ limit < 1 ∨ 100 < limit)%Z →
  let out := serve (get_posts request skip limit i u q) d in
  status (reply_of out) = 422%Z
  ∧ content (reply_of out)
    = Some (PDict
        [("detail",
          PList (map (λ p, PDict [("loc", PList [PStr "query"; PStr p])])
                     ((if bool_decide (skip < 0)%Z then ["skip"] else [])
                      ++ (if bool_decide (limit < 1 ∨ 100 < limit)%Z
                          then ["limit"] else []))))])
  ∧ store_of out = d
  ∧ ops_of out = [].
Proof.
  intros Hout out.
  assert (query_errors skip limit
          = (if bool_decide (skip < 0)%Z then ["skip"] else [])
            ++ (if bool_decide (limit < 1 ∨ 100 < limit)%Z
                then ["limit"] else [])) as Hq.
  { unfold query_errors.
    destruct (Z.leb_spec 0 skip), (Z.leb_spec 1 limit),
      (Z.leb_spec limit 100); simpl;
      repeat case_bool_decide; try done; lia. }
  assert (query_errors skip limit ≠ []) as Hne.
  { intros E. apply query_errors_nil in E. lia. }
  unfold out, serve, get_posts, bind, reply_of, store_of, ops_of.
  rewrite (check_query_refuses skip limit _ Hne). simpl. by rewrite Hq.
Qed.

Lemma listing_bounds_come_first_witness :
  status (reply_of (serve (get_posts Sample.anonymous 0 0 None None None)
                          Sample.store)) = 422%Z.
Proof.
  apply (listing_bounds_come_first Sample.store Sample.anonymous 0 0 None None
           None).
  lia.
Defined.

(** ** Filters narrow *)

Lemma filter_length_mono {A} (P Q : A → Prop)
    `{∀ x, Decision (P x)} `{∀ x, Decision (Q x)} (l : list A) :
  (∀ x, P x → Q x) → (length (filter P l) ≤ length (filter Q l))%nat.
Proof.
  intros HPQ. induction l as [|x l IH]; [done|].
  rewrite !filter_cons. destruct (decide (P x)) as [HP|HP].
  - rewrite decide_True by auto. simpl. lia.
  - case_decide; simpl; lia.
Qed.

Lemma count_posts_mono w1 w2 d :
  (∀ c, c ∈ w2 → c ∈ w1) →
  (Sql.count_posts w1 d ≤ Sql.count_posts w2 d)%Z.
Proof.
  intros Hsub. unfold Sql.count_posts. apply inj_le, filter_length_mono.
  intros r Hr. apply Is_true_true. apply Is_true_true in Hr.
  unfold Sql.where_ in *. rewrite forallb_forall in *.
  intros c Hc. apply Hr, list_elem_of_In, Hsub, list_elem_of_In, Hc.
Qed.

(** Each filter of the listing can only lower the total: dropping any
    one of the three parameters gives a total at least as large, and
    with none of them (or with 0, 0 and the empty text) the total is the
    number of stored posts. *)
Theorem filters_only_narrow d i u q :
  (Sql.count_posts (where_clauses i u q) d
   ≤ Sql.count_posts (where_clauses None u q) d)%Z
  ∧ (Sql.count_posts (where_clauses i u q) d
     ≤ Sql.count_posts (where_clauses i None q) d)%Z
  ∧ (Sql.count_posts (where_clauses i u q) d
     ≤ Sql.count_posts (where_clauses i u None) d)%Z
  ∧ (Sql.count_posts (where_clauses i u q) d ≤ Z.of_nat (length (Posts d)))%Z
  ∧ Sql.count_posts (where_clauses None None None) d
    = Z.of_nat (length (Posts d))
  ∧ Sql.count_posts (where_clauses (Some 0%Z) (Some 0%Z) (Some "")) d
    = Z.of_nat (length (Posts d)).
Proof.
  assert (Sql.count_posts [] d = Z.of_nat (length (Posts d))) as Hall.
  { unfold Sql.count_posts. f_equal. f_equal.
    induction (Posts d) as [|r l IH]; [done|].
    rewrite filter_cons, decide_True by done. by rewrite IH. }
  split_and!.
  - apply count_posts_mono. intros c. unfold where_clauses. simpl.
    rewrite !elem_of_app, ?elem_of_nil. tauto.
  - apply count_posts_mono. intros c. unfold where_clauses. simpl.
    rewrite !elem_of_app, ?elem_of_nil. tauto.
  - apply count_posts_mono. intros c. unfold where_clauses. simpl.
    rewrite !elem_of_app, ?elem_of_nil. tauto.
  - rewrite <-Hall. apply count_posts_mono. by intros c ?%elem_of_nil.
  - exact Hall.
  - exact Hall.
Qed.

(** ** Repeating an update *)




